(** * Gradient saliency by a single backward pass: torchscope/saliency/backprop.py

    A shallow embedding of the class [Backprop] of
    [src/torchscope/saliency/backprop.py] and of the part of PyTorch it
    talks to: tensors, the module tree with its backward hooks, and the
    reverse-mode engine seen through its interface (one forward function, one
    backward function reporting the gradients that enter each module).

    Python exceptions are values of [exn]; statements run in a state and
    exception monad over a [World] holding the tensor objects of the caller,
    the mutable state of the model and the fields of the [Backprop] object. *)

From stdpp Require Import base numbers list option gmap.

Set Warnings "-register-all".

(** ** Scalars

    Tensor elements are kept abstract: a type with the two constants the
    source writes ([0] and [1]), the addition used when gradients accumulate
    and the maximum used by [Tensor.max].  The order is total on the values a
    finite computation produces, which is what the laws state. *)

Class Scalar (A : Type) := {
  zero : A;
  one : A;
  sadd : A → A → A;
  smax : A → A → A;
  sle : A → A → Prop;
  sle_refl : ∀ a, sle a a;
  sle_trans : ∀ a b c, sle a b → sle b c → sle a c;
  smax_ub_l : ∀ a b, sle a (smax a b);
  smax_ub_r : ∀ a b, sle b (smax a b);
  smax_pick : ∀ a b, smax a b = a ∨ smax a b = b
}.

#[export] Instance Z_scalar : Scalar Z := {|
  zero := 0%Z;
  one := 1%Z;
  sadd := Z.add;
  smax := Z.max;
  sle := Z.le;
  sle_refl := Z.le_refl;
  sle_trans := Z.le_trans;
  smax_ub_l := Z.le_max_l;
  smax_ub_r := Z.le_max_r;
  smax_pick := λ a b, match Z.max_dec a b with
                      | left e => or_introl e
                      | right e => or_intror e
                      end
|}.

(** ** Exceptions

    One constructor per place where the modelled code can raise; the comment
    gives the Python exception and the source line. *)

Inductive exn :=
| DanglingReference      (* no Python counterpart: a name always denotes an object *)
| RequiresGradOnNonLeaf  (* RuntimeError, line 62: requires_grad set on a non-leaf *)
| ForwardError (code : nat)   (* raised inside self.model(input_), line 68 *)
| OutputHasNoDims        (* IndexError, line 73: output.shape[-1] of a 0-d output *)
| SeedIndexError         (* IndexError, line 77: target[0][target_class] *)
| SeedShapeMismatch      (* RuntimeError, line 81: gradient and output shapes differ *)
| BackwardError (code : nat)  (* raised by the engine during output.backward, line 81 *)
| HookNoBuffer           (* AttributeError, lines 85 and 96: self.gradient is None *)
| HookNoGradIn           (* IndexError, line 96: grad_in is the empty tuple *)
| HookGradInNone         (* AttributeError, line 96: grad_in[0] is None *)
| BatchIndexError        (* IndexError, line 85: [0] on a 0-d or empty buffer *)
| EmptyChannelMax.       (* IndexError, line 90: max over a dimension of size 0 *)

Inductive result (X : Type) :=
| Ok (x : X)
| Raise (e : exn).
Arguments Ok {X} x.
Arguments Raise {X} e.

(** What the model and the engine answer: a value, or a failure of their own
    (an exception raised inside [self.model(input_)] or inside
    [output.backward]), told apart from the failures of the code under study
    by the place where it surfaces. *)
Inductive engine_result (X : Type) :=
| Done (x : X)
| Failed (code : nat).
Arguments Done {X} x.
Arguments Failed {X} code.

Definition forward_result {X} (r : engine_result X) : result X :=
  match r with Done x => Ok x | Failed c => Raise (ForwardError c) end.
Definition backward_result {X} (r : engine_result X) : result X :=
  match r with Done x => Ok x | Failed c => Raise (BackwardError c) end.

(** ** Tensors: a shape and the elements in row-major order *)

Section Tensors.
Context {A : Type} `{Scalar A}.

Record tensor := Tensor { shape : list nat; data : list A }.

Definition numel (sh : list nat) : nat := foldr Nat.mul 1 sh.

(** [torch.zeros(sh)] and [torch.FloatTensor(..).zero_()] *)
Definition zeros (sh : list nat) : tensor :=
  {| shape := sh; data := replicate (numel sh) zero |}.

(** Element read at a flat offset; an offset past the end reads [zero]
    (it is never used past the end on a tensor whose data fills its shape). *)
Definition at_flat (t : tensor) (i : nat) : A := nth i (data t) zero.

(** Row-major offset of a multi-index, [None] when a coordinate is out of
    its dimension or the ranks differ. *)
Fixpoint offset (sh idx : list nat) : option nat :=
  match sh, idx with
  | [], [] => Some 0
  | n :: sh', i :: idx' =>
      if decide (i < n) then (λ o, i * numel sh' + o) <$> offset sh' idx'
      else None
  | _, _ => None
  end.

(** [t[i0, i1, ...]] *)
Definition tget (t : tensor) (idx : list nat) : option A :=
  at_flat t <$> offset (shape t) idx.

(** [t[0]]: the first slice along dimension 0. *)
Definition select0 (t : tensor) : result tensor :=
  match shape t with
  | [] => Raise BatchIndexError
  | n :: rest =>
      if decide (n = 0) then Raise BatchIndexError
      else Ok {| shape := rest; data := take (numel rest) (data t) |}
  end.

(** Maximum over dimension 0 at the flat position [j] of the remaining
    dimensions, for [c] slices of [r] elements each. *)
Definition chan_max (d : list A) (r c j : nat) : A :=
  foldl (λ acc k, smax acc (nth (k * r + j) d zero)) (nth j d zero) (seq 1 (c - 1)).

(** [t.max(dim=0, keepdim=True)[0]]: the values of the reduction.  A 0-d
    tensor is returned as it is; a dimension of size 0 cannot be reduced. *)
Definition max_dim0_keepdim (t : tensor) : result tensor :=
  match shape t with
  | [] => Ok t
  | c :: rest =>
      if decide (c = 0) then Raise EmptyChannelMax
      else Ok {| shape := 1 :: rest;
                 data := (λ j, chan_max (data t) (numel rest) c j) <$> seq 0 (numel rest) |}
  end.

(** Python index normalisation on a dimension of size [k]: indices
    [-k .. -1] count from the end. *)
Definition normalize_index (k : nat) (i : Z) : option nat :=
  if decide (0 ≤ i < Z.of_nat k)%Z then Some (Z.to_nat i)
  else if decide (- Z.of_nat k ≤ i < 0)%Z then Some (Z.to_nat (i + Z.of_nat k))
  else None.

(** Elementwise sum, used when a gradient accumulates into [.grad]. *)
Definition tadd (a b : tensor) : tensor :=
  {| shape := shape a; data := zip_with sadd (data a) (data b) |}.

End Tensors.
Arguments tensor A : clear implicits.

(** ** The module tree of a model *)

Inductive LayerClass := Conv2dClass | Conv1dClass | LinearClass | OtherClass.

(** The type of a submodule with the structural attributes the code reads. *)
Inductive LayerType :=
| Conv2d (in_channels out_channels : nat)
| Conv1d (in_channels out_channels : nat)
| Linear (in_features out_features : nat)
| Activation
| Pooling
| Container.

(** A module object is known by its identity [mod_id]; the same object may
    occur at several places of the tree (a shared layer). *)
Inductive Module := Mod (id : nat) (ty : LayerType) (children : list Module).

Definition mod_id (m : Module) : nat := let 'Mod i _ _ := m in i.
Definition mod_type (m : Module) : LayerType := let 'Mod _ ty _ := m in ty.
Definition mod_children (m : Module) : list Module := let 'Mod _ _ cs := m in cs.

(** [nn.Module.named_modules(memo)]: the module itself, then its children
    depth first in declaration order, each object once ([memo] holds the
    objects already yielded).  The names are left out: the caller binds them
    to [_]. *)
Fixpoint named_modules_memo (memo : gset nat) (m : Module) {struct m}
  : list Module * gset nat :=
  match m with
  | Mod i ty cs =>
      if decide (i ∈ memo) then ([], memo)
      else (fix over (cs : list Module) (acc : list Module * gset nat) {struct cs} :=
              match cs with
              | [] => acc
              | c :: cs' =>
                  let r := named_modules_memo acc.2 c in
                  over cs' (acc.1 ++ r.1, r.2)
              end) cs ([Mod i ty cs], {[i]} ∪ memo)
  end.

Definition named_modules (m : Module) : list Module := (named_modules_memo ∅ m).1.

(** One step of the loop over the children in [named_modules_memo]. *)
Definition visit (acc : list Module * gset nat) (c : Module) : list Module * gset nat :=
  ((acc.1 ++ (named_modules_memo acc.2 c).1), (named_modules_memo acc.2 c).2).

(** What one traversal with a memo yields: objects not yet seen, each once,
    all of them added to the memo. *)
Definition yields_fresh (memo : gset nat) (r : list Module * gset nat) : Prop :=
  NoDup (mod_id <$> r.1) ∧
  (∀ x, x ∈ mod_id <$> r.1 → x ∉ memo) ∧
  (∀ x, x ∈ r.2 ↔ x ∈ memo ∨ x ∈ mod_id <$> r.1).

(** [nn.Module.children()]: the immediate children, each object once. *)
Definition children (m : Module) : list Module :=
  (foldl (λ (acc : list Module * gset nat) c,
            if decide (mod_id c ∈ acc.2) then acc
            else (acc.1 ++ [c], {[mod_id c]} ∪ acc.2))
         ([], ∅) (mod_children m)).1.

(** The test of lines 100-101:
    [isinstance(module, nn.modules.conv.Conv2d) and module.in_channels == 3]. *)
Definition qualifies (m : Module) : bool :=
  match mod_type m with
  | Conv2d in_channels _ => bool_decide (in_channels = 3)
  | _ => false
  end.

Inductive device := cpu | cuda.

#[export] Instance device_eq_dec : EqDecision device.
Proof. solve_decision. Defined.

(** The one callback the program registers: the closure [_record_gradient]
    of [Backprop._register_hooks]. *)
Inductive callback := RecordGradient.

Section Program.
Context {A : Type} `{Scalar A}.

(** *** The reverse-mode engine, seen from the program

    What the backward pass has for the backward hooks of a module each time
    it reaches that module: the tuples [grad_in] and [grad_out]. *)
Record BackwardEvent := {
  ev_module : nat;
  ev_grad_in : list (option (tensor A));
  ev_grad_out : list (option (tensor A))
}.

(** A model in evaluation mode: its module tree, the scores it computes and,
    for an input that requires gradient and a seed on the output side, what
    one backward pass produces: the events at the modules in the order the
    pass reaches them, and the gradient that arrives at the input. *)
Record Model := {
  m_root : Module;
  m_forward : tensor A → engine_result (tensor A);
  m_backward : tensor A → tensor A →
               engine_result (list BackwardEvent * option (tensor A))
}.

(** *** Mutable state *)

(** A tensor object.  [t_flag] is the requires-grad flag of a leaf,
    [t_grad_fn] tells a tensor computed by a tracked operation (a non-leaf),
    [t_grad] is the accumulated [.grad]. *)
Record TensorObj := {
  t_val : tensor A;
  t_device : device;
  t_flag : bool;
  t_grad_fn : bool;
  t_grad : option (tensor A)
}.

Definition requires_grad (o : TensorObj) : bool := t_flag o || t_grad_fn o.
Definition is_leaf (o : TensorObj) : bool := negb (t_grad_fn o).

(** The state of the model object: mode, placement, the backward hooks of
    each module (handle id and callback, in registration order) and the
    backward passes accumulated in the parameters' [.grad] since the last
    [zero_grad], each recorded by its input and its seed. *)
Record ModelState := {
  ms_training : bool;
  ms_device : device;
  ms_hooks : gmap nat (list (nat * callback));
  ms_param_grad : list (tensor A * tensor A)
}.

(** The fields of a [Backprop] object. *)
Record BackpropObj := {
  self_nodes : list Module;
  self_target_layer_type : LayerClass;
  self_target_layer_in_channels : nat;
  self_gradient : option (tensor A);
  self_device : device
}.

(** [w_next_handle] is the handle counter as [register_backward_hook] of
    line 102 moves it.  The handles that the engine takes for wrappers of its
    own while a forward pass runs are not part of the state: no statement
    below compares the counter before and after a call of
    [calculate_gradient]. *)
Record World := {
  w_heap : list TensorObj;
  w_model : ModelState;
  w_next_handle : nat;      (* RemovableHandle.next_id *)
  w_self : BackpropObj
}.

Definition hooks_of (ms : ModelState) (i : nat) : list (nat * callback) :=
  default [] (ms_hooks ms !! i).

(** *** State and exception monad: the state survives an exception. *)
Definition M (X : Type) : Type := World → result X * World.

#[export] Instance M_ret : MRet M := λ X x w, (Ok x, w).
#[export] Instance M_bind : MBind M := λ X Y f c w,
  match c w with
  | (Ok x, w') => f x w'
  | (Raise e, w') => (Raise e, w')
  end.

Definition raise {X} (e : exn) : M X := λ w, (Raise e, w).
Definition lift {X} (r : result X) : M X := λ w, (r, w).
Definition gets {X} (f : World → X) : M X := λ w, (Ok (f w), w).
Definition modify (f : World → World) : M unit := λ w, (Ok (), f w).

Definition with_model (f : ModelState → ModelState) (w : World) : World :=
  {| w_heap := w_heap w; w_model := f (w_model w);
     w_next_handle := w_next_handle w; w_self := w_self w |}.
Definition with_self (f : BackpropObj → BackpropObj) (w : World) : World :=
  {| w_heap := w_heap w; w_model := w_model w;
     w_next_handle := w_next_handle w; w_self := f (w_self w) |}.
Definition with_heap (f : list TensorObj → list TensorObj) (w : World) : World :=
  {| w_heap := f (w_heap w); w_model := w_model w;
     w_next_handle := w_next_handle w; w_self := w_self w |}.

Definition set_gradient (g : option (tensor A)) (s : BackpropObj) : BackpropObj :=
  {| self_nodes := self_nodes s;
     self_target_layer_type := self_target_layer_type s;
     self_target_layer_in_channels := self_target_layer_in_channels s;
     self_gradient := g; self_device := self_device s |}.

Fixpoint for_each {X} (l : list X) (body : X → M unit) : M unit :=
  match l with
  | [] => mret ()
  | x :: l' => body x ;; for_each l' body
  end.

(** *** The methods of the model and of tensors the program calls *)

(** [model.eval()] *)
Definition set_eval (ms : ModelState) : ModelState :=
  {| ms_training := false; ms_device := ms_device ms;
     ms_hooks := ms_hooks ms; ms_param_grad := ms_param_grad ms |}.
Definition model_eval : M unit := modify (with_model set_eval).

(** [model.to(dev)] *)
Definition set_device (dev : device) (ms : ModelState) : ModelState :=
  {| ms_training := ms_training ms; ms_device := dev;
     ms_hooks := ms_hooks ms; ms_param_grad := ms_param_grad ms |}.
Definition model_to (dev : device) : M unit := modify (with_model (set_device dev)).

(** [model.zero_grad()] *)
Definition clear_param_grad (ms : ModelState) : ModelState :=
  {| ms_training := ms_training ms; ms_device := ms_device ms;
     ms_hooks := ms_hooks ms; ms_param_grad := [] |}.
Definition model_zero_grad : M unit := modify (with_model clear_param_grad).

Definition add_hook (i h : nat) (cb : callback) (ms : ModelState) : ModelState :=
  {| ms_training := ms_training ms; ms_device := ms_device ms;
     ms_hooks := <[i := hooks_of ms i ++ [(h, cb)]]> (ms_hooks ms);
     ms_param_grad := ms_param_grad ms |}.

(** [module.register_backward_hook(cb)] on the module object [i]: a new
    handle takes the next global id, the hook is stored under it after the
    hooks the module already has, and the handle is returned. *)
Definition register_backward_hook (i : nat) (cb : callback) : M nat := λ w,
  let h := w_next_handle w in
  (Ok h, {| w_heap := w_heap w; w_model := add_hook i h cb (w_model w);
            w_next_handle := S h; w_self := w_self w |}).

Definition add_param_grad (x seed : tensor A) (ms : ModelState) : ModelState :=
  {| ms_training := ms_training ms; ms_device := ms_device ms;
     ms_hooks := ms_hooks ms;
     ms_param_grad := ms_param_grad ms ++ [(x, seed)] |}.

Definition deref (r : nat) : M TensorObj := λ w,
  match w_heap w !! r with
  | Some o => (Ok o, w)
  | None => (Raise DanglingReference, w)
  end.

(** [t.to(dev)]: the object itself when it is on [dev] already, otherwise a
    new tensor on [dev] with the same elements, computed from [t] (so a
    non-leaf when [t] requires gradient). *)
Definition moved (dev : device) (o : TensorObj) : TensorObj :=
  {| t_val := t_val o; t_device := dev; t_flag := false;
     t_grad_fn := requires_grad o; t_grad := None |}.

Definition tensor_to (r : nat) (dev : device) : M nat :=
  o ← deref r;
  if decide (t_device o = dev) then mret r
  else
    r' ← gets (λ w, length (w_heap w));
    modify (with_heap (λ h, h ++ [moved dev o])) ;;
    mret r'.

Definition set_flag (o : TensorObj) : TensorObj :=
  {| t_val := t_val o; t_device := t_device o; t_flag := true;
     t_grad_fn := t_grad_fn o; t_grad := t_grad o |}.

(** [t.requires_grad = True]: allowed on leaves only. *)
Definition set_requires_grad (r : nat) : M unit :=
  o ← deref r;
  if t_grad_fn o then raise RequiresGradOnNonLeaf
  else modify (with_heap (λ h, <[r := set_flag o]> h)).

Definition add_grad (g : tensor A) (o : TensorObj) : TensorObj :=
  {| t_val := t_val o; t_device := t_device o; t_flag := t_flag o;
     t_grad_fn := t_grad_fn o;
     t_grad := Some (match t_grad o with
                     | None => g
                     | Some old => tadd old g
                     end) |}.

(** The end of a backward pass at a leaf that requires gradient: the
    gradient that arrived is added to its [.grad]. *)
Definition accumulate_grad (r : nat) (g : option (tensor A)) : M unit :=
  match g with
  | None => mret ()
  | Some g =>
      o ← deref r;
      if is_leaf o && requires_grad o
      then modify (with_heap (λ h, <[r := add_grad g o]> h))
      else mret ()
  end.

(** *** Backprop *)

(** Lines 95-97, the closure registered as backward hook:
<<
    def _record_gradient(module, grad_in, grad_out):
        if self.gradient.shape == grad_in[0].shape:
            self.gradient = grad_in[0]
>> *)
Definition _record_gradient (module : nat)
    (grad_in grad_out : list (option (tensor A))) : M unit :=
  buffer ← gets (λ w, self_gradient (w_self w));
  match buffer with
  | None => raise HookNoBuffer
  | Some b =>
      match grad_in with
      | [] => raise HookNoGradIn
      | None :: _ => raise HookGradInNone
      | Some g :: _ =>
          if decide (shape b = shape g)
          then modify (with_self (set_gradient (Some g)))
          else mret ()
      end
  end.

Definition call_hook (cb : callback) (ev : BackwardEvent) : M unit :=
  match cb with
  | RecordGradient => _record_gradient (ev_module ev) (ev_grad_in ev) (ev_grad_out ev)
  end.

(** The hook calls of one backward pass, in order: at each event the hooks
    of its module, in registration order. *)
Definition scheduled (ms : ModelState) (evs : list BackwardEvent)
  : list (callback * BackwardEvent) :=
  ev ← evs; (λ hc : nat * callback, (hc.2, ev)) <$> hooks_of ms (ev_module ev).

(** [output.backward(gradient=seed)] for [output = model(x)], [x] being the
    value of the tensor object [input_]: the seed must have the shape of the
    output; the hooks run as the pass reaches their modules; the pass then
    leaves its contribution in the parameters and in the input leaf.
    [m_backward] describes a pass of the engine that runs to its end; a pass
    that the engine aborts is [Failed], and where the engine stopped (which
    hooks had run, which gradients had been accumulated) is not described: no
    statement below says what the buffer or the accumulated gradients hold
    after a call that ended in [BackwardError]. *)
Definition backward (m : Model) (input_ : nat) (x output seed : tensor A) : M unit :=
  if decide (shape seed = shape output) then
    r ← lift (backward_result (m_backward m x seed));
    ms ← gets w_model;
    for_each (scheduled ms r.1) (λ ce, call_hook ce.1 ce.2) ;;
    modify (with_model (add_param_grad x seed)) ;;
    accumulate_grad input_ r.2
  else raise SeedShapeMismatch.

(** Lines 94-102. *)
Definition _register_hooks (m : Model) : M unit :=
  for_each (named_modules (m_root m)) (λ module,
    if qualifies module
    then register_backward_hook (mod_id module) RecordGradient ;; mret ()
    else mret ()).

(** Lines 31-38: the fields set before the hooks are registered ([_device]
    is not yet set). *)
Definition init_fields (m : Model) (s : BackpropObj) : BackpropObj :=
  {| self_nodes := children (m_root m);
     self_target_layer_type := Conv2dClass;
     self_target_layer_in_channels := 3;
     self_gradient := None;
     self_device := self_device s |}.

(** Line 41. *)
Definition init_device (cuda_available : bool) (s : BackpropObj) : BackpropObj :=
  {| self_nodes := self_nodes s;
     self_target_layer_type := self_target_layer_type s;
     self_target_layer_in_channels := self_target_layer_in_channels s;
     self_gradient := self_gradient s;
     self_device := if cuda_available then cuda else cpu |}.

(** Lines 30-41; [cuda_available] is [torch.cuda.is_available()]. *)
Definition __init__ (m : Model) (cuda_available : bool) : M unit :=
  model_eval ;;
  modify (with_self (init_fields m)) ;;
  _register_hooks m ;;
  modify (with_self (init_device cuda_available)).

(** [output.shape[-1]] *)
Definition last_dim (t : tensor A) : result nat :=
  match last (shape t) with
  | Some k => Ok k
  | None => Raise OutputHasNoDims
  end.

(** [target[0][i] = 1] on a 2-d [target]. *)
Definition set_row0 (target : tensor A) (i : Z) : result (tensor A) :=
  match shape target with
  | [n; k] =>
      if decide (n = 0) then Raise SeedIndexError
      else match normalize_index k i with
           | Some j => Ok {| shape := shape target; data := <[j := one]> (data target) |}
           | None => Raise SeedIndexError
           end
  | _ => Raise SeedIndexError
  end.

(** Lines 73-77: the seed of the backward pass. *)
Definition make_target (output : tensor A) (target_class : Z) : result (tensor A) :=
  match last_dim output with
  | Ok k => set_row0 (zeros [1; k]) target_class
  | Raise e => Raise e
  end.

(** Lines 58-64: placement, reset of the parameters' gradients, the input
    marked as requiring gradient, the buffer reset.  Returns the tensor
    object bound to [input_] from line 61 on. *)
Definition prepare (input_ : nat) : M nat :=
  dev ← gets (λ w, self_device (w_self w));
  model_to dev ;;
  model_zero_grad ;;
  input_ ← tensor_to input_ dev;
  set_requires_grad input_ ;;
  o ← deref input_;
  modify (with_self (set_gradient (Some (zeros (shape (t_val o)))))) ;;
  mret input_.

(** Lines 85-92. *)
Definition extract (take_max : bool) : M (tensor A) :=
  buffer ← gets (λ w, self_gradient (w_self w));
  match buffer with
  | None => raise HookNoBuffer
  | Some b =>
      gradient ← lift (select0 b);
      if take_max then lift (max_dim0_keepdim gradient) else mret gradient
  end.

(** Lines 43-92. *)
Definition calculate_gradient (m : Model) (input_ : nat) (target_class : Z)
    (take_max : bool) : M (tensor A) :=
  input_ ← prepare input_;
  o ← deref input_;
  output ← lift (forward_result (m_forward m (t_val o)));
  target ← lift (make_target output target_class);
  backward m input_ (t_val o) output target ;;
  extract take_max.

End Program.
Arguments Model A : clear implicits.
Arguments World A : clear implicits.
Arguments TensorObj A : clear implicits.
Arguments ModelState A : clear implicits.
Arguments BackpropObj A : clear implicits.
Arguments BackwardEvent A : clear implicits.

(** ** The hooks of a backward pass, read on the buffer alone

    [_record_gradient] touches nothing but [self.gradient]; [hook_step] is
    its effect on that field and [fold_hooks] the effect of a whole schedule,
    with the exception that stopped it, if any. *)

Section Buffer.
Context {A : Type} `{Scalar A}.

Definition hook_step (b : option (tensor A)) (ce : callback * BackwardEvent A)
  : result unit * option (tensor A) :=
  match ce.1 with
  | RecordGradient =>
      match b with
      | None => (Raise HookNoBuffer, b)
      | Some b0 =>
          match ev_grad_in ce.2 with
          | [] => (Raise HookNoGradIn, b)
          | None :: _ => (Raise HookGradInNone, b)
          | Some g :: _ =>
              if decide (shape b0 = shape g) then (Ok (), Some g) else (Ok (), b)
          end
      end
  end.

Fixpoint fold_hooks (l : list (callback * BackwardEvent A)) (b : option (tensor A))
  : result unit * option (tensor A) :=
  match l with
  | [] => (Ok (), b)
  | ce :: l' =>
      match hook_step b ce with
      | (Ok _, b') => fold_hooks l' b'
      | (Raise e, b') => (Raise e, b')
      end
  end.

(** The events of a backward pass at the module object [q]. *)
Definition events_at (q : nat) (evs : list (BackwardEvent A)) : list (BackwardEvent A) :=
  filter (λ ev, ev_module ev = q) evs.

(** A one-hot row: [k] elements, [one] at position [j]. *)
Definition one_hot (k j : nat) : list A :=
  (λ i, if decide (i = j) then one else zero) <$> seq 0 k.

End Buffer.

(** ** A small network family with a real backward pass

    Layers applied one after the other, over integer elements.  A network
    declares submodules and applies layers in its forward pass; as in
    PyTorch the two lists need not agree (a declared layer may be applied
    twice, or not at all). *)

Record Layer := {
  l_id : nat;
  l_type : LayerType;
  l_forward : tensor Z → engine_result (tensor Z);
  (* vector-Jacobian product: input, gradient at the output, gradient at the input *)
  l_vjp : tensor Z → tensor Z → tensor Z
}.

Record Net := { net_declared : list Layer; net_forward : list Layer }.

Fixpoint chain_forward (ls : list Layer) (x : tensor Z) : engine_result (tensor Z) :=
  match ls with
  | [] => Done x
  | l :: ls' =>
      match l_forward l x with
      | Done y => chain_forward ls' y
      | Failed c => Failed c
      end
  end.

(** The backward pass visits the layers last to first; at each it reports
    the gradient entering the layer's input. *)
Fixpoint chain_backward (ls : list Layer) (x seed : tensor Z)
  : engine_result (list (BackwardEvent Z) * tensor Z) :=
  match ls with
  | [] => Done ([], seed)
  | l :: ls' =>
      match l_forward l x with
      | Failed c => Failed c
      | Done y =>
          match chain_backward ls' y seed with
          | Failed c => Failed c
          | Done (evs, gy) =>
              let gx := l_vjp l x gy in
              Done (evs ++ [{| ev_module := l_id l;
                             ev_grad_in := [Some gx];
                             ev_grad_out := [Some gy] |}], gx)
          end
      end
  end.

Definition net_model (n : Net) : Model Z :=
  {| m_root := Mod 0 Container ((λ l, Mod (l_id l) (l_type l) []) <$> net_declared n);
     m_forward := chain_forward (net_forward n);
     m_backward := λ x seed,
       match chain_backward (net_forward n) x seed with
       | Done (evs, g) => Done (evs, Some g)
       | Failed c => Failed c
       end |}.

Definition sumZ (l : list Z) : Z := foldr Z.add 0%Z l.

Definition weight (wt : list (list Z)) (o c : nat) : Z := nth c (nth o wt []) 0%Z.

(** [nn.Conv2d(cin, cout, kernel_size=1, bias=False)] with weight [wt]
    (one row per output channel). *)
Definition pointwise_conv (i cin cout : nat) (wt : list (list Z)) : Layer :=
  {| l_id := i;
     l_type := Conv2d cin cout;
     l_forward := λ x,
       match shape x with
       | [n; c; h; w] =>
           if decide (c = cin) then
             Done {| shape := [n; cout; h; w];
                   data := b ← seq 0 n; o ← seq 0 cout; p ← seq 0 (h * w);
                           [sumZ ((λ k, weight wt o k * at_flat x ((b * cin + k) * (h * w) + p))%Z
                                    <$> seq 0 cin)] |}
           else Failed 1
       | _ => Failed 1
       end;
     l_vjp := λ x gy,
       match shape x with
       | [n; c; h; w] =>
           {| shape := shape x;
              data := b ← seq 0 n; k ← seq 0 cin; p ← seq 0 (h * w);
                      [sumZ ((λ o, weight wt o k * at_flat gy ((b * cout + o) * (h * w) + p))%Z
                               <$> seq 0 cout)] |}
       | _ => zeros (shape x)
       end |}.

(** A classifier head: flatten, then [nn.Linear(fin, fout, bias=False)]
    with weight [wt] (one row per class). *)
Definition flatten_linear (i fin fout : nat) (wt : list (list Z)) : Layer :=
  {| l_id := i;
     l_type := Linear fin fout;
     l_forward := λ x,
       match shape x with
       | n :: rest =>
           if decide (numel rest = fin) then
             Done {| shape := [n; fout];
                   data := b ← seq 0 n; o ← seq 0 fout;
                           [sumZ ((λ j, weight wt o j * at_flat x (b * fin + j))%Z
                                    <$> seq 0 fin)] |}
           else Failed 2
       | [] => Failed 2
       end;
     l_vjp := λ x gy,
       match shape x with
       | n :: rest =>
           {| shape := shape x;
              data := b ← seq 0 n; j ← seq 0 fin;
                      [sumZ ((λ o, weight wt o j * at_flat gy (b * fout + o))%Z
                               <$> seq 0 fout)] |}
       | [] => zeros (shape x)
       end |}.

(** The world before a [Backprop] object is built: a freshly loaded model
    (training mode, on the cpu, no hooks, no gradients) and the tensors of
    the caller. *)
Definition loaded {A} (heap : list (TensorObj A)) : World A :=
  {| w_heap := heap;
     w_model := {| ms_training := true; ms_device := cpu;
                   ms_hooks := ∅; ms_param_grad := [] |};
     w_next_handle := 0;
     w_self := {| self_nodes := []; self_target_layer_type := OtherClass;
                  self_target_layer_in_channels := 0;
                  self_gradient := None; self_device := cpu |} |}.

(** A plain tensor of the caller: a leaf on the cpu that does not require
    gradient. *)
Definition plain {A} (t : tensor A) : TensorObj A :=
  {| t_val := t; t_device := cpu; t_flag := false; t_grad_fn := false; t_grad := None |}.

(** conv 3 -> 1 then a 2-class head, on 1 x 3 x 2 x 2 images. *)
Definition rgb_conv : Layer := pointwise_conv 1 3 1 [[1; 2; 3]]%Z.
Definition head4 : Layer := flatten_linear 2 4 2 [[1; 0; 0; 0]; [0; 1; 1; 2]]%Z.
Definition rgb_net : Net := {| net_declared := [rgb_conv; head4];
                               net_forward := [rgb_conv; head4] |}.

Definition image : tensor Z :=
  {| shape := [1; 3; 2; 2]; data := [1; 2; 3; 4; 5; 6; 7; 8; 9; 10; 11; 12]%Z |}.

(** A grey-scale network: its only convolution has one input channel. *)
Definition grey_conv : Layer := pointwise_conv 1 1 1 [[2]]%Z.
Definition grey_net : Net := {| net_declared := [grey_conv; head4];
                                net_forward := [grey_conv; head4] |}.
Definition grey_image : tensor Z :=
  {| shape := [1; 1; 2; 2]; data := [1; 2; 3; 4]%Z |}.

(** A network whose only convolution, 3 -> 3, is applied twice. *)
Definition mix_conv : Layer :=
  pointwise_conv 1 3 3 [[1; 0; 0]; [0; 1; 0]; [1; 1; 1]]%Z.
Definition head12 : Layer :=
  flatten_linear 2 12 2 [[1; 0; 0; 0; 0; 0; 0; 0; 0; 0; 0; 0];
                         [0; 0; 0; 0; 1; 0; 0; 0; 0; 0; 0; 2]]%Z.
Definition twice_net : Net := {| net_declared := [mix_conv; head12];
                                 net_forward := [mix_conv; mix_conv; head12] |}.


(** The world after [Backprop(model)] on a machine without accelerator, the
    caller holding one image. *)
Definition built (n : Net) (img : tensor Z) : World Z :=
  (__init__ (net_model n) false (loaded [plain img])).2.

(** ** What a call returns, as a function of what it reads

    [outcome] follows [calculate_gradient] statement by statement on the
    values only: the hooks table, the device of the extractor and the tensor
    object the caller passes ([None] for a reference that denotes nothing). *)

Section Outcome.
Context {A : Type} `{Scalar A}.

(** Line 62 raises when [input_] is a non-leaf after line 61: the caller's
    tensor itself when it stays on its device, else the copy, computed from
    the caller's tensor when that one requires gradient. *)
Definition non_leaf_after_move (dev : device) (o : TensorObj A) : bool :=
  if decide (t_device o = dev) then t_grad_fn o else requires_grad o.

Definition finish (take_max : bool) (b : option (tensor A)) : result (tensor A) :=
  match b with
  | None => Raise HookNoBuffer
  | Some b =>
      match select0 b with
      | Ok g => if take_max then max_dim0_keepdim g else Ok g
      | Raise e => Raise e
      end
  end.

(** The world after lines 58-59. *)
Definition placed (w : World A) : World A :=
  with_model clear_param_grad (with_model (set_device (self_device (w_self w))) w).

Definition outcome (m : Model A) (ms : ModelState A) (dev : device)
    (ro : option (TensorObj A)) (target_class : Z) (take_max : bool)
  : result (tensor A) :=
  match ro with
  | None => Raise DanglingReference
  | Some o =>
      if non_leaf_after_move dev o then Raise RequiresGradOnNonLeaf
      else
        match forward_result (m_forward m (t_val o)) with
        | Raise e => Raise e
        | Ok output =>
            match make_target output target_class with
            | Raise e => Raise e
            | Ok seed =>
                if decide (shape seed = shape output) then
                  match backward_result (m_backward m (t_val o) seed) with
                  | Raise e => Raise e
                  | Ok bw =>
                      match fold_hooks (scheduled ms bw.1)
                                       (Some (zeros (shape (t_val o)))) with
                      | (Ok _, b) => finish take_max b
                      | (Raise e, _) => Raise e
                      end
                  end
                else Raise SeedShapeMismatch
            end
        end
  end.

End Outcome.


(** The submodules that receive a hook, in traversal order. *)
Definition targets (root : Module) : list Module :=
  filter (λ md, qualifies md = true) (named_modules root).

(** ** Readings of the specification that the code does not follow

    Each of the four propositions below states a sentence of the
    specification literally; each is refuted further down on a concrete
    network, next to the statement that does hold. *)

(** "At the start of every call the buffer is reset to a zero tensor whose
    shape equals the model's output score vector." *)
Definition buffer_reset_to_output_shape : Prop :=
  ∀ (A : Type) (SA : Scalar A) (m : Model A) (w w' : World A) (r r' : nat)
    (o : TensorObj A) (output : tensor A),
    w_heap w !! r = Some o →
    prepare r w = (Ok r', w') →
    m_forward m (t_val o) = Done output →
    self_gradient (w_self w') = Some (zeros (shape output)).

(** "The call fails at seed construction/indexing exactly when target_class
    is outside 0 <= target_class < num_classes." *)
Definition seed_fails_exactly_outside_range : Prop :=
  ∀ (A : Type) (SA : Scalar A) (m : Model A) (w : World A) (r : nat) (t : Z)
    (tm : bool) (o : TensorObj A) (output : tensor A) (k : nat),
    w_heap w !! r = Some o →
    non_leaf_after_move (self_device (w_self w)) o = false →
    m_forward m (t_val o) = Done output →
    last (shape output) = Some k →
    ((calculate_gradient m r t tm w).1 = Raise SeedIndexError
     ↔ ¬ (0 ≤ t < Z.of_nat k)%Z).

(** "For a model containing exactly one 2D convolution with 3 input channels
    the hook fires exactly once per call, and the spatial dimensions of the
    returned gradient equal those of the input image." *)
Definition hook_fires_once : Prop :=
  ∀ (A : Type) (SA : Scalar A) (m : Model A) (w0 : World A) (cuda_available : bool)
    (r : nat) (t : Z) (tm : bool) (o : TensorObj A) (n c h wd : nat)
    (output seed res : tensor A) (bw : list (BackwardEvent A) * option (tensor A)),
    length (targets (m_root m)) = 1 →
    ms_hooks (w_model w0) = ∅ →
    let w := (__init__ m cuda_available w0).2 in
    w_heap w !! r = Some o →
    shape (t_val o) = [n; c; h; wd] →
    m_forward m (t_val o) = Done output →
    make_target output t = Ok seed →
    m_backward m (t_val o) seed = Done bw →
    (calculate_gradient m r t tm w).1 = Ok res →
    length (scheduled (w_model w) bw.1) = 1 ∧ ∃ c', shape res = [c'; h; wd].

(** "When the input already resides on the compute device the call sets its
    requires_grad flag in place; all other attributes of the input tensor are
    left unchanged." *)
Definition only_requires_grad_changes : Prop :=
  ∀ (A : Type) (SA : Scalar A) (m : Model A) (w w' : World A) (r : nat) (t : Z)
    (tm : bool) (o : TensorObj A) (res : tensor A),
    w_heap w !! r = Some o →
    t_device o = self_device (w_self w) →
    calculate_gradient m r t tm w = (Ok res, w') →
    ∃ o', w_heap w' !! r = Some o' ∧ requires_grad o' = true ∧
          t_val o' = t_val o ∧ t_device o' = t_device o ∧
          t_grad_fn o' = t_grad_fn o ∧ t_grad o' = t_grad o.



(** ** Which gradient a backward pass leaves in the buffer *)

Section Recorded.
Context {A : Type} `{Scalar A}.

(** [grad_in[0]] of a hook call, when the tuple is not empty and its first
    element is a tensor. *)
Definition observed (ce : callback * BackwardEvent A) : option (tensor A) :=
  match ev_grad_in ce.2 with
  | Some g :: _ => Some g
  | _ => None
  end.

(** The gradients of a schedule that pass the test of line 96 against a
    buffer of shape [sh], in the order of the calls. *)
Definition recorded (sh : list nat) (sched : list (callback * BackwardEvent A))
  : list (tensor A) :=
  omap (λ ce, match observed ce with
              | Some g => if decide (sh = shape g) then Some g else None
              | None => None
              end) sched.

End Recorded.

(** ** More concrete inputs *)

(** A tensor of the caller that was computed from tensors requiring gradient
    (a non-leaf), on the cpu. *)
Definition computed {A} (t : tensor A) : TensorObj A :=
  {| t_val := t; t_device := cpu; t_flag := false; t_grad_fn := true; t_grad := None |}.

(** A batch of two images, 2 x 3 x 2 x 2 holding 1 .. 24. *)
Definition image_pair : tensor Z :=
  {| shape := [2; 3; 2; 2];
     data := [1; 2; 3; 4; 5; 6; 7; 8; 9; 10; 11; 12;
              13; 14; 15; 16; 17; 18; 19; 20; 21; 22; 23; 24]%Z |}.

(** The world after [Backprop(model)] on a machine with an accelerator, the
    caller holding one tensor object on the cpu. *)
Definition built_on_cuda (n : Net) (o : TensorObj Z) : World Z :=
  (__init__ (net_model n) true (loaded [o])).2.

(** The world after [Backprop(model)] on a machine without accelerator, for
    any tensor object of the caller. *)
Definition built_with (n : Net) (o : TensorObj Z) : World Z :=
  (__init__ (net_model n) false (loaded [o])).2.



(** * Facts about the module tree *)

Lemma Module_nested_ind (P : Module → Prop) :
  (∀ i ty cs, Forall P cs → P (Mod i ty cs)) → ∀ m, P m.
Proof.
  intros Hstep. fix IH 1. intros [i ty cs]. apply Hstep.
  induction cs as [|c cs IHcs]; constructor; [apply IH|apply IHcs].
Qed.

Lemma named_modules_memo_unfold memo i ty cs :
  named_modules_memo memo (Mod i ty cs) =
  if decide (i ∈ memo) then ([], memo)
  else foldl visit ([Mod i ty cs], {[i]} ∪ memo) cs.
Proof.
  simpl. case_decide; [done|].
  generalize ([Mod i ty cs], {[i]} ∪ memo).
  generalize (Mod i ty cs). intros _.
  induction cs as [|c cs IH]; intros acc; simpl; [done|]. apply IH.
Qed.

Lemma named_modules_memo_fresh m :
  ∀ memo, yields_fresh memo (named_modules_memo memo m).
Proof.
  induction m as [i ty cs IH] using Module_nested_ind. intros memo.
  rewrite named_modules_memo_unfold. destruct (decide (i ∈ memo)) as [Hi|Hi].
  { split; [constructor|]. split; [by intros x ?%elem_of_nil|].
    intros x. simpl. split; [by left|]. by intros [?|?%elem_of_nil]. }
  assert (yields_fresh memo ([Mod i ty cs], {[i]} ∪ memo)) as Hacc.
  { split; [apply NoDup_singleton|]. split.
    - intros x ->%list_elem_of_singleton. done.
    - intros x. simpl. rewrite list_elem_of_singleton, elem_of_union, elem_of_singleton.
      tauto. }
  revert Hacc. generalize ([Mod i ty cs], {[i]} ∪ memo).
  induction IH as [|c cs Hc _ IHcs]; intros acc Hacc; simpl; [done|].
  apply IHcs. destruct Hacc as (Hnd & Hfresh & Hmem).
  destruct (Hc acc.2) as (Hnd' & Hfresh' & Hmem').
  unfold visit, yields_fresh. simpl. rewrite fmap_app. split; [|split].
  - apply NoDup_app. split; [done|]. split; [|done].
    intros x Hx Hx'. apply (Hfresh' x Hx'). apply Hmem. by right.
  - intros x [Hx|Hx]%elem_of_app; [by apply Hfresh|].
    intros Hxm. apply (Hfresh' x Hx). apply Hmem. by left.
  - intros x. rewrite Hmem', Hmem, elem_of_app. tauto.
Qed.

Lemma named_modules_NoDup root : NoDup (mod_id <$> named_modules root).
Proof. apply (named_modules_memo_fresh root ∅). Qed.



Section Facts.
Context {A : Type} `{Scalar A}.
Implicit Types (w : World A) (m : Model A) (o : TensorObj A).

Lemma bind_unfold {X Y} (c : M X) (f : X → M Y) w :
  (c ≫= f) w = match c w with
               | (Ok x, w') => f x w'
               | (Raise e, w') => (Raise e, w')
               end.
Proof. reflexivity. Qed.

Lemma with_self_same w : with_self (set_gradient (self_gradient (w_self w))) w = w.
Proof. destruct w as [h ms n [? ? ? ? ?]]; reflexivity. Qed.

Lemma for_each_hooks (l : list (callback * BackwardEvent A)) w :
  for_each l (λ ce, call_hook ce.1 ce.2) w =
  ((fold_hooks l (self_gradient (w_self w))).1,
   with_self (set_gradient (fold_hooks l (self_gradient (w_self w))).2) w).
Proof.
  revert w; induction l as [|[cb ev] l IH]; intros w; simpl.
  - by rewrite with_self_same.
  - rewrite bind_unfold. unfold hook_step, call_hook; simpl.
    destruct cb. unfold _record_gradient. rewrite bind_unfold. simpl.
    destruct (self_gradient (w_self w)) as [b|] eqn:Hb; simpl.
    2:{ rewrite <- Hb. by rewrite with_self_same. }
    destruct (ev_grad_in ev) as [|[g|] gi]; simpl.
    1,3: rewrite <- Hb; by rewrite with_self_same.
    destruct (decide (shape b = shape g)); simpl.
    + rewrite IH. simpl. done.
    + rewrite IH. simpl. by rewrite Hb.
Qed.


Lemma prepare_spec r w :
  prepare r w =
  match w_heap w !! r with
  | None => (Raise DanglingReference, placed w)
  | Some o =>
      if decide (t_device o = self_device (w_self w)) then
        if t_grad_fn o then (Raise RequiresGradOnNonLeaf, placed w)
        else (Ok r,
              with_self (set_gradient (Some (zeros (shape (t_val o)))))
                (with_heap (λ h, <[r := set_flag o]> h) (placed w)))
      else
        let o' := moved (self_device (w_self w)) o in
        let w1 := with_heap (λ h, h ++ [o']) (placed w) in
        if requires_grad o then (Raise RequiresGradOnNonLeaf, w1)
        else (Ok (length (w_heap w)),
              with_self (set_gradient (Some (zeros (shape (t_val o)))))
                (with_heap (λ h, <[length (w_heap w) := set_flag o']> h) w1))
  end.
Proof.
  unfold prepare, tensor_to, set_requires_grad, deref, model_to, model_zero_grad,
    modify, gets, raise, placed.
  unfold mbind, M_bind, mret, M_ret; simpl.
  destruct (w_heap w !! r) as [o|] eqn:Hr; simpl; [|done].
  destruct (decide (t_device o = self_device (w_self w))) as [Hd|Hd]; simpl.
  - rewrite Hr; simpl. destruct (t_grad_fn o) eqn:Hg; simpl; [done|].
    rewrite list_lookup_insert_eq; [|by eapply lookup_lt_Some]. done.
  - rewrite lookup_app_r; [|done]. rewrite Nat.sub_diag; simpl.
    destruct (requires_grad o) eqn:Hg; simpl; [done|].
    rewrite list_lookup_insert_eq; [|rewrite length_app; simpl; lia]. done.
Qed.

Lemma backward_spec m r x out seed w :
  backward m r x out seed w =
  if decide (shape seed = shape out) then
    match backward_result (m_backward m x seed) with
    | Raise e => (Raise e, w)
    | Ok bw =>
        let fh := fold_hooks (scheduled (w_model w) bw.1) (self_gradient (w_self w)) in
        let w1 := with_self (set_gradient fh.2) w in
        match fh.1 with
        | Raise e => (Raise e, w1)
        | Ok _ => accumulate_grad r bw.2 (with_model (add_param_grad x seed) w1)
        end
    end
  else (Raise SeedShapeMismatch, w).
Proof.
  unfold backward. destruct (decide (shape seed = shape out)) as [Hs|Hs]; [|done].
  unfold lift, gets, modify, mbind, M_bind; simpl.
  destruct (m_backward m x seed) as [bw|e]; simpl; [|done].
  rewrite for_each_hooks; simpl.
  destruct (fold_hooks _ _) as [[[]|e] b]; done.
Qed.

Lemma accumulate_grad_spec r g w :
  accumulate_grad r g w =
  match g with
  | None => (Ok (), w)
  | Some g =>
      match w_heap w !! r with
      | None => (Raise DanglingReference, w)
      | Some o =>
          if is_leaf o && requires_grad o
          then (Ok (), with_heap (λ h, <[r := add_grad g o]> h) w)
          else (Ok (), w)
      end
  end.
Proof.
  unfold accumulate_grad. destruct g as [g|]; [|done].
  unfold deref, mbind, M_bind, modify, mret, M_ret.
  destruct (w_heap w !! r) as [o|]; [|done].
  by destruct (is_leaf o && requires_grad o).
Qed.

Lemma extract_spec tm w :
  extract tm w = (finish tm (self_gradient (w_self w)), w).
Proof.
  unfold extract, finish, gets, lift, raise, mbind, M_bind, mret, M_ret.
  destruct (self_gradient (w_self w)) as [b|]; [|done].
  destruct (select0 b) as [g|e]; [|done]. by destruct tm.
Qed.

(** The call after line 64, on the tensor object [input_] denotes. *)
Lemma calculate_gradient_unfold m r t tm w :
  calculate_gradient m r t tm w =
  match prepare r w with
  | (Raise e, w') => (Raise e, w')
  | (Ok r', w') =>
      match w_heap w' !! r' with
      | None => (Raise DanglingReference, w')
      | Some o =>
          match forward_result (m_forward m (t_val o)) with
          | Raise e => (Raise e, w')
          | Ok out =>
              match make_target out t with
              | Raise e => (Raise e, w')
              | Ok seed =>
                  match backward m r' (t_val o) out seed w' with
                  | (Raise e, w'') => (Raise e, w'')
                  | (Ok _, w'') => (finish tm (self_gradient (w_self w'')), w'')
                  end
              end
          end
      end
  end.
Proof.
  unfold calculate_gradient, mbind, M_bind.
  destruct (prepare r w) as [[r'|e] w']; [|done].
  unfold deref. destruct (w_heap w' !! r') as [o|]; [|done].
  unfold lift. destruct (forward_result (m_forward m (t_val o))) as [out|e]; [|done].
  destruct (make_target out t) as [seed|e]; [|done].
  destruct (backward m r' (t_val o) out seed w') as [[[]|e] w'']; [|done].
  apply extract_spec.
Qed.

Lemma scheduled_hooks (ms ms' : ModelState A) evs :
  ms_hooks ms' = ms_hooks ms → scheduled ms' evs = scheduled ms evs.
Proof. intros Hh. unfold scheduled, hooks_of. by rewrite Hh. Qed.

Lemma calculate_gradient_outcome m r t tm w :
  (calculate_gradient m r t tm w).1 =
  outcome m (w_model w) (self_device (w_self w)) (w_heap w !! r) t tm.
Proof.
  rewrite calculate_gradient_unfold, prepare_spec. unfold outcome, non_leaf_after_move.
  destruct (w_heap w !! r) as [o|] eqn:Hr; [|done].
  destruct (decide (t_device o = self_device (w_self w))) as [Hd|Hd].
  - destruct (t_grad_fn o) eqn:Hg; [done|]. simpl.
    rewrite list_lookup_insert_eq; [|by eapply lookup_lt_Some]. simpl.
    destruct (m_forward m (t_val o)) as [out|e] eqn:Hfw; simpl; [|done].
    destruct (make_target out t) as [seed|e]; [|done].
    rewrite backward_spec. destruct (decide (shape seed = shape out)) as [Hs|Hs]; [|done].
    destruct (m_backward m (t_val o) seed) as [bw|e] eqn:Hbw; simpl; [|done]. simpl.
    destruct (fold_hooks _ _) as [[[]|e] b]; [|done]. simpl.
    rewrite accumulate_grad_spec.
    destruct bw.2; [|done]. simpl.
    rewrite list_lookup_insert_eq; [|by eapply lookup_lt_Some].
    by destruct (is_leaf (set_flag o) && requires_grad (set_flag o)).
  - simpl. destruct (requires_grad o) eqn:Hg; [done|]. simpl.
    rewrite list_lookup_insert_eq; [|rewrite length_app; simpl; lia]. simpl.
    destruct (m_forward m (t_val o)) as [out|e] eqn:Hfw; simpl; [|done].
    destruct (make_target out t) as [seed|e]; [|done].
    rewrite backward_spec. destruct (decide (shape seed = shape out)) as [Hs|Hs]; [|done].
    destruct (m_backward m (t_val o) seed) as [bw|e] eqn:Hbw; simpl; [|done]. simpl.
    destruct (fold_hooks _ _) as [[[]|e] b]; [|done]. simpl.
    rewrite accumulate_grad_spec.
    destruct bw.2; [|done]. simpl.
    rewrite list_lookup_insert_eq; [|rewrite ?length_insert, length_app; simpl; lia].
    by destruct (is_leaf _ && requires_grad _).
Qed.

Lemma fold_hooks_shape (l : list (callback * BackwardEvent A)) b :
  ∃ b', (fold_hooks l (Some b)).2 = Some b' ∧ shape b' = shape b.
Proof.
  revert b; induction l as [|[[] ev] l IH]; intros b; simpl; [by eexists|].
  unfold hook_step; simpl.
  destruct (ev_grad_in ev) as [|[g|] gi]; simpl; [by eexists| |by eexists].
  destruct (decide (shape b = shape g)) as [Hs|Hs].
  - destruct (IH g) as (b' & ? & ?). exists b'. split; [done|congruence].
  - apply IH.
Qed.

Lemma select0_shape (b g : tensor A) :
  select0 b = Ok g → ∃ n, n ≠ 0 ∧ shape b = n :: shape g ∧ data g = take (numel (shape g)) (data b).
Proof.
  unfold select0. destruct (shape b) as [|n rest]; [done|].
  destruct (decide (n = 0)); [done|]. intros [= <-]. by exists n.
Qed.

Lemma calculate_gradient_frame m r t tm w :
  let dev := self_device (w_self w) in
  let w' := (calculate_gradient m r t tm w).2 in
  ms_hooks (w_model w') = ms_hooks (w_model w) ∧
  self_device (w_self w') = dev ∧
  match w_heap w !! r with
  | None => w_heap w' !! r = None
  | Some o =>
      ∃ o', w_heap w' !! r = Some o' ∧ t_val o' = t_val o ∧
            t_device o' = t_device o ∧ t_grad_fn o' = t_grad_fn o ∧
            if decide (t_device o = dev)
            then requires_grad o' = true ∧ length (w_heap w') = length (w_heap w)
            else o' = o
  end.
Proof.
  simpl. rewrite calculate_gradient_unfold, prepare_spec.
  destruct (w_heap w !! r) as [o|] eqn:Hr; [|done].
  assert (r < length (w_heap w)) as Hlt by by eapply lookup_lt_Some.
  destruct (decide (t_device o = self_device (w_self w))) as [Hd|Hd].
  - destruct (t_grad_fn o) eqn:Hg.
    { simpl. repeat split; try done. exists o. repeat split; try done.
      unfold requires_grad. rewrite Hg. by destruct (t_flag o). }
    simpl. rewrite list_lookup_insert_eq by done. simpl.
    assert (<[r:=set_flag o]> (w_heap w) !! r = Some (set_flag o)) as Hl
      by by rewrite list_lookup_insert_eq.
    pose proof (length_insert (w_heap w) r (set_flag o)) as Hlen.
    destruct (m_forward m (t_val o)) as [out|e] eqn:Hfw; simpl; [|by eauto 10].
    destruct (make_target out t) as [seed|e]; simpl; [|by eauto 10].
    rewrite backward_spec.
    destruct (decide (shape seed = shape out)) as [Hs|Hs]; simpl; [|by eauto 10].
    destruct (m_backward m (t_val o) seed) as [bw|e] eqn:Hbw; simpl; [|by eauto 10].
    destruct (fold_hooks _ _) as [[[]|e] b]; simpl; [|by eauto 10].
    rewrite accumulate_grad_spec. destruct bw.2 as [g|]; simpl; [|by eauto 10].
    rewrite Hl.
    assert (is_leaf (set_flag o) && requires_grad (set_flag o) = true) as ->
      by (unfold is_leaf, requires_grad; simpl; by rewrite Hg).
    simpl.
    split; [done|]. split; [done|]. exists (add_grad g (set_flag o)).
    rewrite !length_insert. rewrite list_lookup_insert_eq by by rewrite length_insert.
    done.
  - simpl. set (dev := self_device (w_self w)) in *.
    assert ((w_heap w ++ [moved dev o]) !! r = Some o) as Hl0
      by by rewrite lookup_app_l.
    destruct (requires_grad o) eqn:Hg; simpl; [by eauto 10|].
    rewrite list_lookup_insert_eq by (rewrite length_app; simpl; lia). simpl.
    assert (<[length (w_heap w):=set_flag (moved dev o)]> (w_heap w ++ [moved dev o]) !! r
            = Some o) as Hl1 by (rewrite list_lookup_insert_ne by lia; done).
    destruct (m_forward m (t_val o)) as [out|e] eqn:Hfw; simpl; [|by eauto 10].
    destruct (make_target out t) as [seed|e]; simpl; [|by eauto 10].
    rewrite backward_spec.
    destruct (decide (shape seed = shape out)) as [Hs|Hs]; simpl; [|by eauto 10].
    destruct (m_backward m (t_val o) seed) as [bw|e] eqn:Hbw; simpl; [|by eauto 10].
    destruct (fold_hooks _ _) as [[[]|e] b]; simpl; [|by eauto 10].
    rewrite accumulate_grad_spec. destruct bw.2 as [g|]; simpl; [|by eauto 10].
    rewrite list_lookup_insert_eq by (rewrite length_app; simpl; lia).
    assert (is_leaf (set_flag (moved dev o)) && requires_grad (set_flag (moved dev o)) = true)
      as -> by (unfold is_leaf, requires_grad; simpl; by rewrite Hg).
    simpl. split; [done|]. split; [done|]. exists o.
    rewrite list_lookup_insert_ne by lia. done.
Qed.

Lemma outcome_ext m (ms ms' : ModelState A) dev o o' t tm :
  ms_hooks ms' = ms_hooks ms →
  t_val o' = t_val o →
  non_leaf_after_move dev o' = non_leaf_after_move dev o →
  outcome m ms' dev (Some o') t tm = outcome m ms dev (Some o) t tm.
Proof.
  intros Hh Hv Hn. unfold outcome. rewrite Hn, Hv.
  destruct (non_leaf_after_move dev o); [done|].
  destruct (m_forward m (t_val o)) as [out|e] eqn:Hfw; simpl; [|done].
  destruct (make_target out t) as [seed|e]; [|done].
  case_decide; [|done].
  destruct (m_backward m (t_val o) seed) as [bw|e] eqn:Hbw; simpl; [|done].
  by rewrite (scheduled_hooks ms ms').
Qed.

Lemma normalize_index_lt k t j : normalize_index k t = Some j → j < k.
Proof.
  unfold normalize_index. repeat case_decide; intros [= <-]; lia.
Qed.

Lemma normalize_index_nonneg k t j :
  normalize_index k t = Some j → (0 ≤ t)%Z → j = Z.to_nat t.
Proof.
  unfold normalize_index. repeat case_decide; intros [= <-] ?; lia.
Qed.

Lemma normalize_index_some k t :
  is_Some (normalize_index k t) ↔ (- Z.of_nat k ≤ t < Z.of_nat k)%Z.
Proof.
  unfold normalize_index. repeat case_decide; split; intros Hx;
    try lia; try (by eexists); destruct Hx as [? [=]].
Qed.

Lemma insert_replicate_one_hot k j :
  j < k → <[j := one]> (replicate k zero) = one_hot (A:=A) k j.
Proof.
  intros Hj. apply list_eq; intros i. unfold one_hot.
  rewrite list_lookup_fmap.
  destruct (decide (i < k)) as [Hi|Hi].
  - rewrite lookup_seq_lt by done. simpl.
    destruct (decide (i = j)) as [->|Hne].
    + rewrite list_lookup_insert_eq; [done|by rewrite length_replicate].
    + rewrite list_lookup_insert_ne by done. by rewrite lookup_replicate_2.
  - rewrite lookup_seq_ge by lia. simpl.
    apply lookup_ge_None. rewrite length_insert, length_replicate. lia.
Qed.

Lemma make_target_spec (out seed : tensor A) t :
  make_target out t = Ok seed ↔
  ∃ k j, last (shape out) = Some k ∧ normalize_index k t = Some j ∧
         seed = {| shape := [1; k]; data := one_hot k j |}.
Proof.
  unfold make_target, last_dim, set_row0.
  destruct (last (shape out)) as [k|]; simpl.
  2:{ split; [done|]. by intros (? & ? & [=] & _). }
  destruct (normalize_index k t) as [j|] eqn:Hj.
  - replace (k * 1 + 0) with k by lia.
    rewrite insert_replicate_one_hot by by eapply normalize_index_lt.
    split.
    + intros [= <-]. eauto.
    + intros (k' & j' & [= <-] & Hj' & ->). rewrite Hj in Hj'. by injection Hj' as ->.
  - split; [done|]. intros (k' & j' & [= <-] & Hj' & _). congruence.
Qed.

Lemma make_target_index_error (out : tensor A) t k :
  last (shape out) = Some k →
  make_target out t = Raise SeedIndexError ↔ ¬ (- Z.of_nat k ≤ t < Z.of_nat k)%Z.
Proof.
  intros Hk. rewrite <- normalize_index_some.
  unfold make_target, last_dim, set_row0. rewrite Hk. simpl.
  destruct (normalize_index k t) as [j|]; split; try done.
  intros Hn. destruct Hn. by eexists.
Qed.

(** A call that returns: what it read and what it left. *)
Lemma calculate_gradient_ok m r t tm w res w' o :
  w_heap w !! r = Some o →
  calculate_gradient m r t tm w = (Ok res, w') →
  ∃ out seed bw b,
    non_leaf_after_move (self_device (w_self w)) o = false ∧
    m_forward m (t_val o) = Done out ∧
    make_target out t = Ok seed ∧
    shape seed = shape out ∧
    m_backward m (t_val o) seed = Done bw ∧
    fold_hooks (scheduled (w_model w) bw.1) (Some (zeros (shape (t_val o)))) = (Ok (), b) ∧
    finish tm b = Ok res ∧
    self_gradient (w_self w') = b ∧
    ms_param_grad (w_model w') = [(t_val o, seed)] ∧
    (t_device o = self_device (w_self w) →
     w_heap w' !! r = Some (match bw.2 with
                            | Some g => add_grad g (set_flag o)
                            | None => set_flag o
                            end)).
Proof.
  intros Hr. rewrite calculate_gradient_unfold, prepare_spec, Hr.
  unfold non_leaf_after_move.
  assert (r < length (w_heap w)) as Hlt by by eapply lookup_lt_Some.
  destruct (decide (t_device o = self_device (w_self w))) as [Hd|Hd].
  - destruct (t_grad_fn o) eqn:Hg; [done|]. simpl.
    rewrite list_lookup_insert_eq by done. simpl.
    destruct (m_forward m (t_val o)) as [out|e] eqn:Hfw; simpl; [|done].
    destruct (make_target out t) as [seed|e] eqn:Hmt; [|done].
    rewrite backward_spec.
    destruct (decide (shape seed = shape out)) as [Hs|Hs]; [|done].
    destruct (m_backward m (t_val o) seed) as [bw|e] eqn:Hbw; simpl; [|done].
    rewrite (scheduled_hooks (w_model w)) by done.
    destruct (fold_hooks _ _) as [[[]|e] b] eqn:Hf; [|done]. simpl.
    rewrite accumulate_grad_spec. destruct bw.2 as [g|] eqn:Hgin; simpl.
    + rewrite list_lookup_insert_eq by done.
      assert (is_leaf (set_flag o) && requires_grad (set_flag o) = true) as ->
        by (unfold is_leaf, requires_grad; simpl; by rewrite Hg).
      simpl. intros [= Hres <-]. exists out, seed, bw, b. simpl.
      rewrite Hgin. repeat split; try done.
      intros _. rewrite list_lookup_insert_eq by by rewrite length_insert. done.
    + intros [= Hres <-]. exists out, seed, bw, b. simpl.
      rewrite Hgin. repeat split; try done.
      intros _. by rewrite list_lookup_insert_eq.
  - simpl. destruct (requires_grad o) eqn:Hg; [done|]. simpl.
    rewrite list_lookup_insert_eq by (rewrite length_app; simpl; lia). simpl.
    destruct (m_forward m (t_val o)) as [out|e] eqn:Hfw; simpl; [|done].
    destruct (make_target out t) as [seed|e] eqn:Hmt; [|done].
    rewrite backward_spec.
    destruct (decide (shape seed = shape out)) as [Hs|Hs]; [|done].
    destruct (m_backward m (t_val o) seed) as [bw|e] eqn:Hbw; simpl; [|done].
    rewrite (scheduled_hooks (w_model w)) by done.
    destruct (fold_hooks _ _) as [[[]|e] b] eqn:Hf; [|done]. simpl.
    rewrite accumulate_grad_spec. destruct bw.2 as [g|]; simpl.
    + rewrite list_lookup_insert_eq by (rewrite length_app; simpl; lia).
      destruct (is_leaf _ && requires_grad _); simpl;
        intros [= Hres <-]; exists out, seed, bw, b; simpl; done.
    + intros [= Hres <-]; exists out, seed, bw, b; simpl; done.
Qed.

Lemma fold_hooks_not_seed_error (l : list (callback * BackwardEvent A)) b :
  (fold_hooks l b).1 ≠ Raise SeedIndexError.
Proof.
  revert b; induction l as [|[[] ev] l IH]; intros b; simpl; [done|].
  unfold hook_step; simpl. destruct b as [b|]; [|done].
  destruct (ev_grad_in ev) as [|[g|] gi]; simpl; try done.
  case_decide; apply IH.
Qed.

Lemma finish_not_seed_error tm (b : option (tensor A)) :
  finish tm b ≠ Raise SeedIndexError.
Proof.
  unfold finish, select0, max_dim0_keepdim. destruct b as [b|]; [|done].
  destruct (shape b) as [|n rest]; [done|]. case_decide; [done|]. simpl.
  destruct tm; [|done]. destruct rest; [done|]. by case_decide.
Qed.

Lemma outcome_false_inv m (ms : ModelState A) dev o t g :
  outcome m ms dev (Some o) t false = Ok g →
  ∃ b, select0 b = Ok g ∧ shape b = shape (t_val o) ∧
       ∀ tm, outcome m ms dev (Some o) t tm = finish tm (Some b).
Proof.
  unfold outcome.
  destruct (non_leaf_after_move _ _); [done|].
  destruct (forward_result _) as [out|e]; [|done].
  destruct (make_target out t) as [seed|e]; [|done].
  case_decide; [|done].
  destruct (backward_result _) as [bw|e]; [|done].
  destruct (fold_hooks_shape (scheduled ms bw.1) (zeros (shape (t_val o))))
    as (b' & Hb & Hs).
  destruct (fold_hooks _ _) as [[[]|e] b]; [|done]. simpl in Hb. subst b.
  intros Hc. exists b'. unfold finish in Hc |- *.
  destruct (select0 b') as [g'|e] eqn:Hsel; [|done]. injection Hc as ->.
  by repeat split.
Qed.

Lemma foldl_smax_spec (f : nat → A) (l : list nat) (a0 : A) :
  sle a0 (foldl (λ acc k, smax acc (f k)) a0 l) ∧
  (∀ k, k ∈ l → sle (f k) (foldl (λ acc k, smax acc (f k)) a0 l)) ∧
  (foldl (λ acc k, smax acc (f k)) a0 l = a0 ∨
   ∃ k, k ∈ l ∧ foldl (λ acc k, smax acc (f k)) a0 l = f k).
Proof.
  revert a0; induction l as [|x l IH]; intros a0; simpl.
  - split; [apply sle_refl|]. split; [|by left]. intros k Hk. by apply elem_of_nil in Hk.
  - destruct (IH (smax a0 (f x))) as (Hlb & Hub & Hat). split; [|split].
    + eapply sle_trans; [apply smax_ub_l|exact Hlb].
    + intros k [->|Hk]%elem_of_cons; [|by apply Hub].
      eapply sle_trans; [apply smax_ub_r|exact Hlb].
    + destruct Hat as [Heq|(k & Hk & Heq)].
      * rewrite Heq. destruct (smax_pick a0 (f x)) as [->| ->]; [by left|].
        right. exists x. split; [apply elem_of_cons; by left|done].
      * right. exists k. split; [apply elem_of_cons; by right|done].
Qed.

Lemma chan_max_spec (d : list A) (r c j : nat) :
  0 < c →
  (∀ k, k < c → sle (nth (k * r + j) d zero) (chan_max d r c j)) ∧
  (∃ k, k < c ∧ chan_max d r c j = nth (k * r + j) d zero).
Proof.
  intros Hc. unfold chan_max.
  destruct (foldl_smax_spec (λ k, nth (k * r + j) d zero) (seq 1 (c - 1)) (nth j d zero))
    as (Hlb & Hub & Hat).
  split.
  - intros k Hk. destruct k as [|k]; [exact Hlb|].
    apply Hub. apply elem_of_seq. lia.
  - destruct Hat as [Heq|(k & Hk & Heq)].
    + exists 0. split; [done|]. by rewrite Heq.
    + exists k. apply elem_of_seq in Hk. split; [lia|done].
Qed.

Lemma max_dim0_keepdim_spec (g : tensor A) (c h wd : nat) :
  shape g = [c; h; wd] → 0 < c →
  ∃ g', max_dim0_keepdim g = Ok g' ∧ shape g' = [1; h; wd] ∧
    ∀ i j, i < h → j < wd →
      ∃ v, tget g' [0; i; j] = Some v ∧
           (∀ k, k < c → ∃ u, tget g [k; i; j] = Some u ∧ sle u v) ∧
           (∃ k, k < c ∧ tget g [k; i; j] = Some v).
Proof.
  intros Hs Hc. unfold max_dim0_keepdim. rewrite Hs.
  rewrite decide_False by lia. eexists. split; [done|]. split; [done|].
  intros i j Hi Hj. unfold tget. simpl. rewrite Hs. simpl.
  rewrite !decide_True by lia. simpl.
  set (R := h * (wd * 1)). set (p := i * (wd * 1) + (j * 1 + 0)).
  assert (p < R) as Hp by (unfold p, R; nia).
  destruct (chan_max_spec (data g) R c p Hc) as (Hub & k0 & Hk0 & Hat).
  exists (chan_max (data g) R c p). split; [|split].
  - f_equal. unfold at_flat. simpl. rewrite nth_lookup, list_lookup_fmap.
    rewrite lookup_seq_lt by done. done.
  - intros k Hk. rewrite decide_True by done. simpl.
    eexists. split; [done|]. apply Hub, Hk.
  - exists k0. split; [done|]. rewrite decide_True by done. simpl.
    unfold at_flat. by rewrite <- Hat.
Qed.

(** C1, as the code has it: lines 58-64 leave in [self.gradient] a zero
    tensor of the shape of the input tensor. *)
Theorem buffer_reset_to_input_shape (w w' : World A) (r r' : nat) :
  prepare r w = (Ok r', w') →
  ∃ o, w_heap w !! r = Some o ∧
       self_gradient (w_self w') = Some (zeros (shape (t_val o))).
Proof.
  rewrite prepare_spec. destruct (w_heap w !! r) as [o|]; [|done].
  intros Hp. exists o. split; [done|]. revert Hp.
  case_decide.
  - destruct (t_grad_fn o); [done|]. by intros [= _ <-].
  - simpl. destruct (requires_grad o); [done|]. by intros [= _ <-].
Qed.

(** C5, as the code has it: once the forward pass has produced scores over
    [k] classes, the call fails at [target[0][target_class] = 1] exactly when
    [target_class] is outside [-k <= target_class < k]; so every index
    [0 <= target_class < k], the two ends included, passes that line. *)
Theorem seed_index_error_iff (m : Model A) (w : World A) (r : nat) (t : Z)
    (tm : bool) (o : TensorObj A) (output : tensor A) (k : nat) :
  w_heap w !! r = Some o →
  non_leaf_after_move (self_device (w_self w)) o = false →
  m_forward m (t_val o) = Done output →
  last (shape output) = Some k →
  ((calculate_gradient m r t tm w).1 = Raise SeedIndexError
   ↔ ¬ (- Z.of_nat k ≤ t < Z.of_nat k)%Z) ∧
  ((0 ≤ t < Z.of_nat k)%Z →
   (calculate_gradient m r t tm w).1 ≠ Raise SeedIndexError).
Proof.
  intros Hr Hn Hf Hk.
  assert ((calculate_gradient m r t tm w).1 = Raise SeedIndexError
          ↔ ¬ (- Z.of_nat k ≤ t < Z.of_nat k)%Z) as Hiff.
  { rewrite <- (make_target_index_error output t k Hk).
    rewrite calculate_gradient_outcome, Hr. unfold outcome. rewrite Hn, Hf. simpl.
    destruct (make_target output t) as [seed|e]; [|done].
    split; [|done]. case_decide; [|done].
    destruct (m_backward m (t_val o) seed) as [bw|c]; simpl; [|done].
    pose proof (fold_hooks_not_seed_error (scheduled (w_model w) bw.1)
                  (Some (zeros (shape (t_val o))))) as Hh.
    destruct (fold_hooks _ _) as [[[]|e] b]; simpl in *.
    - intros Hfin. by apply finish_not_seed_error in Hfin.
    - intros [= ->]. done. }
  split; [done|]. intros Ht. rewrite Hiff. lia.
Qed.

(** C6: a call that returns has built the seed from zeros, of shape
    [(1, k)] for [k] the last dimension of the scores, with [1] at the
    position Python's indexing gives to [target_class] (the index itself when
    it is not negative) and [0] elsewhere, and the parameters hold the
    gradient of exactly one backward pass, the one of that seed. *)
Theorem seed_is_one_hot (m : Model A) (w w' : World A) (r : nat) (t : Z)
    (tm : bool) (o : TensorObj A) (res : tensor A) :
  w_heap w !! r = Some o →
  calculate_gradient m r t tm w = (Ok res, w') →
  ∃ output k j seed,
    m_forward m (t_val o) = Done output ∧
    last (shape output) = Some k ∧
    normalize_index k t = Some j ∧
    ((0 ≤ t)%Z → j = Z.to_nat t) ∧
    shape seed = [1; k] ∧
    length (data seed) = k ∧
    (∀ i, i < k → data seed !! i = Some (if decide (i = j) then one else zero)) ∧
    ms_param_grad (w_model w') = [(t_val o, seed)].
Proof.
  intros Hr Hc.
  destruct (calculate_gradient_ok _ _ _ _ _ _ _ _ Hr Hc)
    as (out & seed & bw & b & _ & Hf & Hmt & _ & _ & _ & _ & _ & Hpg & _).
  apply make_target_spec in Hmt as (k & j & Hk & Hj & ->).
  exists out, k, j, {| shape := [1; k]; data := one_hot k j |}. simpl.
  repeat split; try done.
  - intros Ht. by eapply normalize_index_nonneg.
  - unfold one_hot. by rewrite length_fmap, length_seq.
  - intros i Hi. unfold one_hot. rewrite list_lookup_fmap, lookup_seq_lt by done.
    done.
Qed.

(** C8: the value a call returns, or the exception it raises, is the same
    when the call is made again on the world the first call left. *)
Theorem successive_calls_identical (m : Model A) (w : World A) (r : nat) (t : Z)
    (tm : bool) :
  (calculate_gradient m r t tm (calculate_gradient m r t tm w).2).1
  = (calculate_gradient m r t tm w).1.
Proof.
  rewrite !calculate_gradient_outcome.
  destruct (calculate_gradient_frame m r t tm w) as (Hh & Hd & Hheap).
  rewrite Hd. destruct (w_heap w !! r) as [o|] eqn:Hr.
  - destruct Hheap as (o' & -> & Hv & Hdev & Hg & Hrest).
    apply outcome_ext; [done..|].
    unfold non_leaf_after_move. rewrite Hdev.
    destruct (decide (t_device o = self_device (w_self w))); [done|].
    by rewrite Hrest.
  - rewrite Hheap. done.
Qed.

(** C9: the hook replaces the buffer by the gradient it observes exactly
    when the two shapes are equal, and so a call with [take_max=False] that
    returns gives a tensor whose shape is the shape of the input without its
    first (batch) dimension. *)
Theorem buffer_keeps_input_shape (m : Model A) (w : World A) (r : nat) (t : Z)
    (o : TensorObj A) (res : tensor A) :
  w_heap w !! r = Some o →
  (calculate_gradient m r t false w).1 = Ok res →
  (∃ n, shape (t_val o) = n :: shape res) ∧
  (∀ (w1 : World A) module grad_out b g rest,
     self_gradient (w_self w1) = Some b →
     _record_gradient module (Some g :: rest) grad_out w1 =
     (Ok (), if decide (shape b = shape g)
             then with_self (set_gradient (Some g)) w1 else w1)).
Proof.
  intros Hr Hc. split.
  - rewrite calculate_gradient_outcome, Hr in Hc. unfold outcome in Hc.
    destruct (non_leaf_after_move _ _); [done|].
    destruct (forward_result _) as [out|e]; [|done].
    destruct (make_target out t) as [seed|e]; [|done].
    case_decide; [|done].
    destruct (backward_result _) as [bw|e]; [|done].
    destruct (fold_hooks_shape (scheduled (w_model w) bw.1) (zeros (shape (t_val o))))
      as (b' & Hb & Hs).
    destruct (fold_hooks _ _) as [[[]|e] b]; [|done]. simpl in Hb. subst b.
    unfold finish in Hc. destruct (select0 b') as [g|e] eqn:Hsel; [|done].
    injection Hc as ->. apply select0_shape in Hsel as (n & _ & Hn & _).
    exists n. by rewrite <- Hn, Hs.
  - intros w1 module grad_out b g rest Hb.
    unfold _record_gradient, gets, modify, mbind, M_bind, mret, M_ret. rewrite Hb.
    by case_decide.
Qed.

(** C10, as the code has it: for an input already on the device of the
    extractor, line 61 returns the caller's own object (no tensor is created)
    and after the call that object requires gradient, with its elements, its
    shape, its placement and its place in the graph unchanged.  Its [.grad]
    is not left alone: when the call returns, the caller's object is the
    object it passed with the flag set and with the gradient that the backward
    pass delivered to the input added to its [.grad]. *)
Theorem input_requires_grad_in_place (m : Model A) (w : World A) (r : nat) (t : Z)
    (tm : bool) (o : TensorObj A) :
  w_heap w !! r = Some o →
  t_device o = self_device (w_self w) →
  let w' := (calculate_gradient m r t tm w).2 in
  length (w_heap w') = length (w_heap w) ∧
  (∃ o', w_heap w' !! r = Some o' ∧ requires_grad o' = true ∧
         t_val o' = t_val o ∧ t_device o' = t_device o ∧
         t_grad_fn o' = t_grad_fn o) ∧
  (∀ res, (calculate_gradient m r t tm w).1 = Ok res →
     ∃ output seed bw,
       m_forward m (t_val o) = Done output ∧
       make_target output t = Ok seed ∧
       m_backward m (t_val o) seed = Done bw ∧
       w_heap w' !! r = Some (match bw.2 with
                              | Some g => add_grad g (set_flag o)
                              | None => set_flag o
                              end)).
Proof.
  intros Hr Hd. simpl.
  destruct (calculate_gradient_frame m r t tm w) as (_ & _ & Hheap).
  rewrite Hr in Hheap. destruct Hheap as (o' & Hl & Hv & Hdev & Hg & Hrest).
  rewrite decide_True in Hrest by done. destruct Hrest as [Hrq Hlen].
  split; [done|]. split; [by exists o'|].
  intros res Hres.
  destruct (calculate_gradient m r t tm w) as [res' w'] eqn:Hcall.
  simpl in Hres. subst res'.
  destruct (calculate_gradient_ok _ _ _ _ _ _ _ _ Hr Hcall)
    as (out & seed & bw & b & _ & Hf & Hmt & _ & Hbw & _ & _ & _ & _ & Hobj).
  exists out, seed, bw. simpl. auto.
Qed.

(** C3: on a 4-d input with at least one channel, whenever the call with
    [take_max=False] returns [g], the call with [take_max=True] returns a
    tensor of shape [(1, h, w)] whose element at each position is the maximum
    over the channels of [g] there: it bounds every channel and is attained by
    one. *)
Theorem take_max_is_channel_max (m : Model A) (w : World A) (r : nat) (t : Z)
    (o : TensorObj A) (n c h wd : nat) (g : tensor A) :
  w_heap w !! r = Some o →
  shape (t_val o) = [n; c; h; wd] →
  0 < c →
  (calculate_gradient m r t false w).1 = Ok g →
  ∃ g', (calculate_gradient m r t true w).1 = Ok g' ∧
        shape g' = [1; h; wd] ∧
        ∀ i j, i < h → j < wd →
          ∃ v, tget g' [0; i; j] = Some v ∧
               (∀ k, k < c → ∃ u, tget g [k; i; j] = Some u ∧ sle u v) ∧
               (∃ k, k < c ∧ tget g [k; i; j] = Some v).
Proof.
  intros Hr Hsh Hc Hg. rewrite calculate_gradient_outcome, Hr in Hg.
  apply outcome_false_inv in Hg as (b & Hsel & Hb & Hall).
  rewrite calculate_gradient_outcome, Hr, Hall. unfold finish. rewrite Hsel.
  apply select0_shape in Hsel as (n' & _ & Hn & _).
  apply max_dim0_keepdim_spec; [|done]. rewrite Hb, Hsh in Hn. by injection Hn.
Qed.

(** ** Registration *)

Lemma hooks_of_add_hook (ms : ModelState A) i h cb j :
  hooks_of (add_hook i h cb ms) j =
  if decide (i = j) then hooks_of ms i ++ [(h, cb)] else hooks_of ms j.
Proof.
  unfold hooks_of at 1. simpl. rewrite lookup_insert. by case_decide; subst.
Qed.

Lemma register_loop (l : list Module) (w : World A) :
  NoDup (mod_id <$> l) →
  ∃ w', for_each l (λ module,
          if qualifies module
          then register_backward_hook (mod_id module) RecordGradient ;; mret ()
          else mret ()) w = (Ok (), w') ∧
    w_heap w' = w_heap w ∧ w_self w' = w_self w ∧
    ms_training (w_model w') = ms_training (w_model w) ∧
    ms_device (w_model w') = ms_device (w_model w) ∧
    ms_param_grad (w_model w') = ms_param_grad (w_model w) ∧
    w_next_handle w' = w_next_handle w + length (filter (λ md, qualifies md = true) l) ∧
    (∀ k md, filter (λ md, qualifies md = true) l !! k = Some md →
       hooks_of (w_model w') (mod_id md) =
       hooks_of (w_model w) (mod_id md) ++ [(w_next_handle w + k, RecordGradient)]) ∧
    (∀ i, i ∉ mod_id <$> filter (λ md, qualifies md = true) l →
       hooks_of (w_model w') i = hooks_of (w_model w) i).
Proof.
  revert w; induction l as [|md l IH]; intros w Hnd.
  { exists w. simpl. repeat split; try done; lia. }
  rewrite fmap_cons in Hnd. apply NoDup_cons in Hnd as [Hfresh Hnd].
  assert (∀ md', md' ∈ filter (λ md, qualifies md = true) l → mod_id md' ≠ mod_id md)
    as Hother.
  { intros md' Hin Heq. apply Hfresh. rewrite <- Heq.
    apply list_elem_of_fmap. exists md'. split; [done|].
    by apply list_elem_of_filter in Hin as [_ ?]. }
  simpl. unfold mbind, M_bind at 1.
  destruct (qualifies md) eqn:Hq.
  - rewrite filter_cons_True by done.
    unfold register_backward_hook, mbind, M_bind, mret, M_ret. simpl.
    set (w1 := {| w_heap := w_heap w;
                  w_model := add_hook (mod_id md) (w_next_handle w) RecordGradient (w_model w);
                  w_next_handle := S (w_next_handle w); w_self := w_self w |}).
    destruct (IH w1 Hnd) as (w' & Hrun & Hh & Hs & Ht & Hd & Hp & Hn & Hhit & Hmiss).
    exists w'. split; [exact Hrun|]. simpl in *.
    split; [done|]. split; [done|]. split; [done|]. split; [done|].
    split; [done|]. split; [lia|]. split.
    + intros [|k] md'; simpl.
      * intros [= <-]. rewrite Hmiss.
        -- rewrite hooks_of_add_hook, decide_True by done. by rewrite Nat.add_0_r.
        -- intros (md' & Heq & Hin)%list_elem_of_fmap. by apply (Hother md').
      * intros Hk. rewrite (Hhit k md' Hk), hooks_of_add_hook.
        rewrite decide_False.
        -- do 3 f_equal. lia.
        -- intros Heq. apply (Hother md'); [|done]. by eapply list_elem_of_lookup_2.
    + intros i Hi. apply not_elem_of_cons in Hi as [Hne Hi].
      rewrite (Hmiss i Hi), hooks_of_add_hook. by rewrite decide_False.
  - rewrite filter_cons_False by (by rewrite Hq).
    unfold mret, M_ret. simpl. apply IH, Hnd.
Qed.


Lemma register_hooks_spec (m : Model A) (w : World A) :
  ∃ w', _register_hooks m w = (Ok (), w') ∧
    w_heap w' = w_heap w ∧ w_self w' = w_self w ∧
    ms_training (w_model w') = ms_training (w_model w) ∧
    (∀ k md, targets (m_root m) !! k = Some md →
       hooks_of (w_model w') (mod_id md) =
       hooks_of (w_model w) (mod_id md) ++ [(w_next_handle w + k, RecordGradient)]) ∧
    (∀ i, i ∉ mod_id <$> targets (m_root m) →
       hooks_of (w_model w') i = hooks_of (w_model w) i).
Proof.
  destruct (register_loop (named_modules (m_root m)) w (named_modules_NoDup _))
    as (w' & Hrun & Hh & Hs & Ht & Hd & Hp & Hn & Hhit & Hmiss).
  exists w'. by repeat split.
Qed.

Lemma init_unfold (m : Model A) (cuda_available : bool) (w0 : World A) :
  __init__ m cuda_available w0 =
  match _register_hooks m (with_self (init_fields m) (with_model set_eval w0)) with
  | (Ok _, w') => (Ok (), with_self (init_device cuda_available) w')
  | (Raise e, w') => (Raise e, w')
  end.
Proof. reflexivity. Qed.

Lemma init_spec (m : Model A) (cuda_available : bool) (w0 : World A) :
  let w := (__init__ m cuda_available w0).2 in
  w_heap w = w_heap w0 ∧
  self_device (w_self w) = (if cuda_available then cuda else cpu) ∧
  ms_training (w_model w) = false ∧
  (∀ k md, targets (m_root m) !! k = Some md →
     hooks_of (w_model w) (mod_id md) =
     hooks_of (w_model w0) (mod_id md) ++ [(w_next_handle w0 + k, RecordGradient)]) ∧
  (∀ i, i ∉ mod_id <$> targets (m_root m) →
     hooks_of (w_model w) i = hooks_of (w_model w0) i).
Proof.
  simpl. rewrite init_unfold.
  destruct (register_hooks_spec m (with_self (init_fields m) (with_model set_eval w0)))
    as (w' & -> & Hh & Hs & Ht & Hhit & Hmiss).
  simpl in *. by repeat split.
Qed.

Lemma hooks_of_empty (ms : ModelState A) i : ms_hooks ms = ∅ → hooks_of ms i = [].
Proof. intros Hh. unfold hooks_of. by rewrite Hh, lookup_empty. Qed.

Lemma scheduled_cons (ms : ModelState A) ev (evs : list (BackwardEvent A)) :
  scheduled ms (ev :: evs) =
  ((λ hc : nat * callback, (hc.2, ev)) <$> hooks_of ms (ev_module ev)) ++ scheduled ms evs.
Proof. reflexivity. Qed.

Lemma scheduled_nil (ms : ModelState A) (evs : list (BackwardEvent A)) :
  (∀ i, hooks_of ms i = []) → scheduled ms evs = [].
Proof.
  intros Hno. induction evs as [|ev evs IH]; [done|].
  by rewrite scheduled_cons, Hno, IH.
Qed.

(** With one hook on the module [q] and none elsewhere, the hook is called
    once for each event of the backward pass at [q]. *)
Lemma scheduled_length (ms : ModelState A) (q : nat) (evs : list (BackwardEvent A)) :
  length (hooks_of ms q) = 1 →
  (∀ i, i ≠ q → hooks_of ms i = []) →
  length (scheduled ms evs) = length (events_at q evs).
Proof.
  intros Hq Hno. unfold events_at.
  induction evs as [|ev evs IH]; [done|].
  rewrite scheduled_cons, length_app, length_fmap.
  destruct (decide (ev_module ev = q)) as [Heq|Hne].
  - rewrite filter_cons_True by done. rewrite Heq, Hq. simpl. f_equal. exact IH.
  - rewrite filter_cons_False by done. rewrite (Hno _ Hne). simpl. exact IH.
Qed.

Lemma outcome_inv m (ms : ModelState A) dev o t tm res :
  outcome m ms dev (Some o) t tm = Ok res →
  ∃ b, shape b = shape (t_val o) ∧ finish tm (Some b) = Ok res.
Proof.
  unfold outcome.
  destruct (non_leaf_after_move _ _); [done|].
  destruct (forward_result _) as [out|e]; [|done].
  destruct (make_target out t) as [seed|e]; [|done].
  case_decide; [|done].
  destruct (backward_result _) as [bw|e]; [|done].
  destruct (fold_hooks_shape (scheduled ms bw.1) (zeros (shape (t_val o))))
    as (b' & Hb & Hs).
  destruct (fold_hooks _ _) as [[[]|e] b]; [|done]. simpl in Hb. subst b.
  intros Hc. by exists b'.
Qed.

Lemma finish_spatial tm (b res : tensor A) n c h wd :
  shape b = [n; c; h; wd] → finish tm (Some b) = Ok res →
  ∃ c', shape res = [c'; h; wd].
Proof.
  intros Hb. unfold finish. destruct (select0 b) as [g|e] eqn:Hsel; [|done].
  apply select0_shape in Hsel as (n' & _ & Hn & _). rewrite Hb in Hn.
  injection Hn as _ Hg. destruct tm.
  - unfold max_dim0_keepdim. rewrite <- Hg. case_decide; [done|].
    intros [= <-]. by eexists.
  - intros [= <-]. by eexists.
Qed.

Lemma nth_zeros_prefix (k n i : nat) :
  nth i (take k (replicate n (zero (A:=A)))) zero = zero.
Proof.
  rewrite nth_lookup. destruct (take k (replicate n zero) !! i) as [x|] eqn:Hx; [|done].
  simpl. apply lookup_take_Some in Hx as [Hx _]. by apply lookup_replicate in Hx as [-> _].
Qed.

Lemma chan_max_zero (d : list A) (r c j : nat) :
  (∀ i, nth i d zero = zero) → chan_max d r c j = zero.
Proof.
  intros Hd. unfold chan_max. rewrite Hd.
  induction (seq 1 (c - 1)) as [|k l IH]; [done|]. simpl. rewrite Hd.
  destruct (smax_pick zero zero) as [-> | ->]; exact IH.
Qed.

Lemma fmap_const_replicate {X} (x : X) (l : list nat) :
  (λ _, x) <$> l = replicate (length l) x.
Proof. induction l as [|y l IH]; [done|]. rewrite fmap_cons. simpl. by f_equal. Qed.

Lemma finish_zeros tm (n c h wd : nat) :
  0 < n → (tm = true → 0 < c) →
  finish tm (Some (zeros (A:=A) [n; c; h; wd])) =
  Ok (zeros (if tm then [1; h; wd] else [c; h; wd])).
Proof.
  intros Hn Hc. unfold finish, select0. simpl. rewrite decide_False by lia.
  destruct tm.
  - unfold max_dim0_keepdim. simpl. rewrite decide_False by (specialize (Hc eq_refl); lia).
    f_equal. unfold zeros. simpl. f_equal. rewrite Nat.add_0_r.
    trans ((λ _ : nat, zero (A:=A)) <$> seq 0 (h * (wd * 1))).
    + apply list_fmap_ext. intros _ j _. apply chan_max_zero. intros i.
      apply nth_zeros_prefix.
    + by rewrite fmap_const_replicate, length_seq.
  - f_equal. unfold zeros. simpl. f_equal. rewrite take_replicate. f_equal. nia.
Qed.

Lemma make_target_in_range (output : tensor A) (k : nat) (t : Z) :
  shape output = [1; k] → (0 ≤ t < Z.of_nat k)%Z →
  make_target output t = Ok {| shape := [1; k]; data := one_hot k (Z.to_nat t) |}.
Proof.
  intros Hs Ht. apply make_target_spec. exists k, (Z.to_nat t).
  rewrite Hs. split; [done|]. split; [|done].
  unfold normalize_index. by rewrite decide_True.
Qed.

(** C4: on a model without any 2D convolution of 3 input channels, built
    from a model that carries no hook, a call on a 4-d leaf input whose
    forward and backward passes go through raises nothing and returns the
    zero tensor: of shape [(c, h, w)], or [(1, h, w)] with [take_max]. *)
Theorem no_qualifying_layer_returns_zeros (m : Model A) (w0 : World A)
    (cuda_available : bool) (r : nat) (t : Z) (tm : bool) (o : TensorObj A)
    (n c h wd k : nat) (output : tensor A)
    (bw : list (BackwardEvent A) * option (tensor A)) :
  targets (m_root m) = [] →
  ms_hooks (w_model w0) = ∅ →
  w_heap w0 !! r = Some o →
  non_leaf_after_move (if cuda_available then cuda else cpu) o = false →
  shape (t_val o) = [n; c; h; wd] → 0 < n → (tm = true → 0 < c) →
  m_forward m (t_val o) = Done output →
  shape output = [1; k] →
  (0 ≤ t < Z.of_nat k)%Z →
  m_backward m (t_val o) {| shape := [1; k]; data := one_hot k (Z.to_nat t) |} = Done bw →
  (calculate_gradient m r t tm (__init__ m cuda_available w0).2).1
  = Ok (zeros (if tm then [1; h; wd] else [c; h; wd])).
Proof.
  intros Hts Hh Hr Hleaf Hsh Hn Hc Hfw Hout Ht Hbw.
  destruct (init_spec m cuda_available w0) as (Hheap & Hdev & _ & _ & Hmiss).
  rewrite calculate_gradient_outcome, Hheap, Hr, Hdev. unfold outcome.
  rewrite Hleaf, Hfw. simpl. rewrite (make_target_in_range output k t Hout Ht).
  simpl. rewrite decide_True by done. rewrite Hbw. simpl.
  rewrite scheduled_nil.
  - simpl. rewrite Hsh. by apply finish_zeros.
  - intros i. rewrite Hmiss by (rewrite Hts; apply not_elem_of_nil).
    by apply hooks_of_empty.
Qed.

(** C7, as the code has it: with exactly one 2D convolution of 3 input
    channels in the model, built from a model that carries no hook, a call
    that returns has called the hook, without exception, once for each time
    its backward pass reached that layer, whatever that number is: so exactly
    once if and only if the pass reached the layer exactly once.  On a 4-d
    input the tensor returned has the height and the width of the input. *)
Theorem hook_fires_once_per_layer_use (m : Model A) (w0 : World A)
    (cuda_available : bool) (r : nat) (t : Z) (tm : bool) (o : TensorObj A)
    (n c h wd : nat) (output seed res : tensor A)
    (bw : list (BackwardEvent A) * option (tensor A)) :
  length (targets (m_root m)) = 1 →
  ms_hooks (w_model w0) = ∅ →
  let w := (__init__ m cuda_available w0).2 in
  w_heap w !! r = Some o →
  shape (t_val o) = [n; c; h; wd] →
  m_forward m (t_val o) = Done output →
  make_target output t = Ok seed →
  m_backward m (t_val o) seed = Done bw →
  (calculate_gradient m r t tm w).1 = Ok res →
  (∃ q, targets (m_root m) = [q] ∧
        length (scheduled (w_model w) bw.1) = length (events_at (mod_id q) bw.1) ∧
        (length (scheduled (w_model w) bw.1) = 1
         ↔ length (events_at (mod_id q) bw.1) = 1)) ∧
  (fold_hooks (scheduled (w_model w) bw.1) (Some (zeros (shape (t_val o))))).1 = Ok () ∧
  ∃ c', shape res = [c'; h; wd].
Proof.
  intros Hone Hh w Hr Hsh Hfw Hmt Hbw Hres.
  destruct (init_spec m cuda_available w0) as (_ & _ & _ & Hhit & Hmiss).
  fold w in Hhit, Hmiss.
  destruct (targets (m_root m)) as [|q [|q' ts]] eqn:Hts; try done.
  assert (length (scheduled (w_model w) bw.1) = length (events_at (mod_id q) bw.1))
    as Hcount.
  { apply scheduled_length.
    - rewrite (Hhit 0 q eq_refl), (hooks_of_empty _ _ Hh). done.
    - intros i Hi. rewrite Hmiss; [by apply hooks_of_empty|].
      simpl. by intros ->%list_elem_of_singleton. }
  split; [|split].
  - exists q. split; [done|]. split; [exact Hcount|]. by rewrite Hcount.
  - rewrite calculate_gradient_outcome, Hr in Hres. unfold outcome in Hres.
    destruct (non_leaf_after_move _ _); [done|].
    rewrite Hfw in Hres. simpl in Hres. rewrite Hmt in Hres.
    destruct (decide (shape seed = shape output)) as [Hs|Hs]; [|done].
    rewrite Hbw in Hres. simpl in Hres.
    by destruct (fold_hooks _ _) as [[[]|e] b].
  - rewrite calculate_gradient_outcome, Hr in Hres.
    apply outcome_inv in Hres as (b & Hb & Hfin).
    eapply finish_spatial; [|exact Hfin]. by rewrite Hb.
Qed.
End Facts.

(** * The sequential networks *)

(** The backward pass of a sequential network reaches the layers in the
    reverse of the order in which the forward pass applies them, each as many
    times as it is applied. *)
Lemma chain_backward_modules (ls : list Layer) (x seed : tensor Z) evs g :
  chain_backward ls x seed = Done (evs, g) →
  ev_module <$> evs = reverse (l_id <$> ls).
Proof.
  revert x evs g; induction ls as [|l ls IH]; intros x evs g; simpl.
  { by intros [= <- _]. }
  destruct (l_forward l x) as [y|c]; [|done].
  destruct (chain_backward ls y seed) as [[evs' gy]|c] eqn:Hrest; [|done].
  intros [= <- _]. rewrite fmap_app, reverse_cons. simpl.
  by rewrite (IH _ _ _ Hrest).
Qed.

Lemma events_at_count (q : nat) (evs : list (BackwardEvent Z)) :
  length (events_at q evs) = length (filter (λ i, i = q) (ev_module <$> evs)).
Proof.
  unfold events_at. induction evs as [|ev evs IH]; [done|].
  rewrite fmap_cons. destruct (decide (ev_module ev = q)) as [Heq|Hne].
  - rewrite !filter_cons_True by done. simpl. by rewrite IH.
  - by rewrite !filter_cons_False.
Qed.

Lemma net_backward_reaches (n : Net) (x seed : tensor Z) bw (q : nat) :
  m_backward (net_model n) x seed = Done bw →
  length (events_at q bw.1) = length (filter (λ i, i = q) (l_id <$> net_forward n)).
Proof.
  simpl. destruct (chain_backward (net_forward n) x seed) as [[evs g]|c] eqn:Hb; [|done].
  intros [= <-]. simpl. rewrite events_at_count, (chain_backward_modules _ _ _ _ _ Hb).
  apply Permutation_length, filter_Permutation, reverse_Permutation.
Qed.

(** * The statements on concrete networks *)

(** The calls used below, on the convolution 3 -> 1 with a 2-class head and
    the image 1 x 3 x 2 x 2 holding 1 .. 12. *)
Example rgb_gradient_class1 :
  (calculate_gradient (net_model rgb_net) 0 1 false (built rgb_net image)).1
  = Ok {| shape := [3; 2; 2];
          data := [0; 1; 1; 2; 0; 2; 2; 4; 0; 3; 3; 6]%Z |}.
Proof. reflexivity. Qed.

Example rgb_gradient_class1_max :
  (calculate_gradient (net_model rgb_net) 0 1 true (built rgb_net image)).1
  = Ok {| shape := [1; 2; 2]; data := [0; 3; 3; 6]%Z |}.
Proof. reflexivity. Qed.

Example rgb_gradient_out_of_range :
  (calculate_gradient (net_model rgb_net) 0 2 false (built rgb_net image)).1
  = Raise SeedIndexError.
Proof. reflexivity. Qed.

(** Counterexample to C1 as stated: on the example network the buffer after
    lines 58-64 has the shape of the image, (1, 3, 2, 2), while the scores have
    shape (1, 2). *)
Lemma buffer_not_reset_to_output_shape : ¬ buffer_reset_to_output_shape.
Proof.
  intros Hc.
  specialize (Hc Z Z_scalar (net_model rgb_net) (built rgb_net image)
                (prepare 0 (built rgb_net image)).2 0 0 (plain image)
                {| shape := [1; 2]; data := [38; 206]%Z |}
                eq_refl eq_refl eq_refl).
  vm_compute in Hc. discriminate Hc.
Qed.

(** The amended C1 on the example network. *)
Lemma buffer_reset_to_input_shape_witness :
  ∃ o, w_heap (built rgb_net image) !! 0 = Some o ∧
       self_gradient (w_self (prepare 0 (built rgb_net image)).2)
       = Some (zeros (shape (t_val o))).
Proof.
  apply (buffer_reset_to_input_shape (built rgb_net image) _ 0 0). reflexivity.
Defined.


(** Witness of C3: the two calls on the example network, class 1. *)
Lemma take_max_is_channel_max_witness :
  ∃ g', (calculate_gradient (net_model rgb_net) 0 1 true (built rgb_net image)).1 = Ok g' ∧
        shape g' = [1; 2; 2] ∧
        ∀ i j, i < 2 → j < 2 →
          ∃ v, tget g' [0; i; j] = Some v ∧
               (∀ k, k < 3 →
                  ∃ u, tget {| shape := [3; 2; 2];
                               data := [0; 1; 1; 2; 0; 2; 2; 4; 0; 3; 3; 6]%Z |} [k; i; j]
                       = Some u ∧ sle u v) ∧
               (∃ k, k < 3 ∧
                  tget {| shape := [3; 2; 2];
                          data := [0; 1; 1; 2; 0; 2; 2; 4; 0; 3; 3; 6]%Z |} [k; i; j]
                  = Some v).
Proof.
  apply (take_max_is_channel_max (net_model rgb_net) (built rgb_net image) 0 1
           (plain image) 1 3 2 2).
  - reflexivity.
  - reflexivity.
  - lia.
  - reflexivity.
Defined.

(** Witness of C4: the grey-scale network, whose convolution takes one
    channel, returns zeros. *)
Lemma no_qualifying_layer_returns_zeros_witness :
  (calculate_gradient (net_model grey_net) 0 1 true (built grey_net grey_image)).1
  = Ok (zeros [1; 2; 2]).
Proof.
  apply (no_qualifying_layer_returns_zeros (net_model grey_net) (loaded [plain grey_image])
           false 0 1 true (plain grey_image) 1 1 2 2 2
           {| shape := [1; 2]; data := [2; 26]%Z |}
           ([{| ev_module := 2;
                ev_grad_in := [Some {| shape := [1; 1; 2; 2]; data := [0; 1; 1; 2]%Z |}];
                ev_grad_out := [Some {| shape := [1; 2]; data := [0; 1]%Z |}] |};
             {| ev_module := 1;
                ev_grad_in := [Some {| shape := [1; 1; 2; 2]; data := [0; 2; 2; 4]%Z |}];
                ev_grad_out := [Some {| shape := [1; 1; 2; 2]; data := [0; 1; 1; 2]%Z |}] |}],
            Some {| shape := [1; 1; 2; 2]; data := [0; 2; 2; 4]%Z |})).
  - reflexivity.
  - reflexivity.
  - reflexivity.
  - reflexivity.
  - reflexivity.
  - lia.
  - intros _. lia.
  - reflexivity.
  - reflexivity.
  - lia.
  - reflexivity.
Defined.

(** Counterexample to C5 as stated: with 2 classes the index -1 is outside
    0 <= target_class < 2, and the call returns (it selects the last class). *)
Lemma negative_index_passes : ¬ seed_fails_exactly_outside_range.
Proof.
  intros Hc.
  destruct (Hc Z Z_scalar (net_model rgb_net) (built rgb_net image) 0 (-1)%Z false
              (plain image) {| shape := [1; 2]; data := [38; 206]%Z |} 2
              eq_refl eq_refl eq_refl eq_refl) as [_ Hraise].
  assert (¬ (0 ≤ -1 < Z.of_nat 2)%Z) as Hout by lia.
  specialize (Hraise Hout). vm_compute in Hraise. discriminate Hraise.
Qed.

(** The amended C5 at the upper boundary, class 1 of 2. *)
Lemma seed_index_error_iff_witness :
  ((calculate_gradient (net_model rgb_net) 0 1 false (built rgb_net image)).1
     = Raise SeedIndexError
   ↔ ¬ (- Z.of_nat 2 ≤ 1 < Z.of_nat 2)%Z) ∧
  ((0 ≤ 1 < Z.of_nat 2)%Z →
   (calculate_gradient (net_model rgb_net) 0 1 false (built rgb_net image)).1
     ≠ Raise SeedIndexError).
Proof.
  apply (seed_index_error_iff (net_model rgb_net) (built rgb_net image) 0 1%Z false
           (plain image) {| shape := [1; 2]; data := [38; 206]%Z |} 2);
    reflexivity.
Defined.

(** Witness of C6: the seed of the call for class 1 on the example network. *)
Lemma seed_is_one_hot_witness :
  ∃ output k j seed,
    m_forward (net_model rgb_net) image = Done output ∧
    last (shape output) = Some k ∧
    normalize_index k 1 = Some j ∧
    ((0 ≤ 1)%Z → j = Z.to_nat 1) ∧
    shape seed = [1; k] ∧
    length (data seed) = k ∧
    (∀ i, i < k → data seed !! i = Some (if decide (i = j) then 1%Z else 0%Z)) ∧
    ms_param_grad
      (w_model (calculate_gradient (net_model rgb_net) 0 1 false (built rgb_net image)).2)
    = [(image, seed)].
Proof.
  refine (seed_is_one_hot (net_model rgb_net) (built rgb_net image)
            (calculate_gradient (net_model rgb_net) 0 1 false (built rgb_net image)).2
            0 1 false (plain image)
            {| shape := [3; 2; 2]; data := [0; 1; 1; 2; 0; 2; 2; 4; 0; 3; 3; 6]%Z |} _ _).
  - reflexivity.
  - reflexivity.
Defined.

(** Counterexample to C7 as stated: the network [twice_net] has exactly one
    2D convolution with 3 input channels and applies it twice; the hook is
    called twice in one call. *)
Lemma shared_layer_fires_twice : ¬ hook_fires_once.
Proof.
  intros Hc.
  destruct (Hc Z Z_scalar (net_model twice_net) (loaded [plain image]) false 0 1%Z false
              (plain image) 1 3 2 2
              {| shape := [1; 2]; data := [1; 77]%Z |}
              {| shape := [1; 2]; data := [0; 1]%Z |}
              {| shape := [3; 2; 2]; data := [0; 0; 0; 4; 1; 0; 0; 4; 0; 0; 0; 2]%Z |}
              (match m_backward (net_model twice_net) image
                       {| shape := [1; 2]; data := [0; 1]%Z |} with
               | Done bw => bw
               | Failed _ => ([], None)
               end)
              eq_refl eq_refl eq_refl eq_refl eq_refl eq_refl eq_refl eq_refl)
    as [Hlen _].
  vm_compute in Hlen. discriminate Hlen.
Qed.

(** The amended C7 on two networks: the one that applies its only
    convolution twice (two hook calls for the two times the backward pass
    reaches the layer, which are the two times the forward pass applies it)
    and the example network, which applies it once. *)
Lemma hook_fires_once_per_layer_use_witness :
  ((∃ q, targets (m_root (net_model twice_net)) = [q] ∧
         length (scheduled (w_model (built twice_net image))
                   (match m_backward (net_model twice_net) image
                            {| shape := [1; 2]; data := [0; 1]%Z |} with
                    | Done bw => bw.1
                    | Failed _ => []
                    end))
         = length (filter (λ i, i = mod_id q) (l_id <$> net_forward twice_net))) ∧
   length (scheduled (w_model (built twice_net image))
             (match m_backward (net_model twice_net) image
                      {| shape := [1; 2]; data := [0; 1]%Z |} with
              | Done bw => bw.1
              | Failed _ => []
              end)) = 2 ∧
   ∃ c', shape {| shape := [3; 2; 2];
                  data := [0; 0; 0; 4; 1; 0; 0; 4; 0; 0; 0; 2]%Z |} = [c'; 2; 2]) ∧
  (length (scheduled (w_model (built rgb_net image))
             (match m_backward (net_model rgb_net) image
                      {| shape := [1; 2]; data := [0; 1]%Z |} with
              | Done bw => bw.1
              | Failed _ => []
              end)) = 1 ∧
   ∃ c', shape {| shape := [3; 2; 2];
                  data := [0; 1; 1; 2; 0; 2; 2; 4; 0; 3; 3; 6]%Z |} = [c'; 2; 2]).
Proof.
  split.
  - pose proof (hook_fires_once_per_layer_use (net_model twice_net) (loaded [plain image])
                  false 0 1%Z false (plain image) 1 3 2 2
                  {| shape := [1; 2]; data := [1; 77]%Z |}
                  {| shape := [1; 2]; data := [0; 1]%Z |}
                  {| shape := [3; 2; 2]; data := [0; 0; 0; 4; 1; 0; 0; 4; 0; 0; 0; 2]%Z |}
                  (match m_backward (net_model twice_net) image
                           {| shape := [1; 2]; data := [0; 1]%Z |} with
                   | Done bw => bw
                   | Failed _ => ([], None)
                   end)
                  eq_refl eq_refl eq_refl eq_refl eq_refl eq_refl eq_refl eq_refl)
      as ((q & Hq & Hcount & _) & _ & Hshape).
    split; [|split; [reflexivity|exact Hshape]].
    exists q. split; [exact Hq|].
    etrans; [exact Hcount|].
    apply (net_backward_reaches twice_net image {| shape := [1; 2]; data := [0; 1]%Z |}).
    reflexivity.
  - pose proof (hook_fires_once_per_layer_use (net_model rgb_net) (loaded [plain image])
                  false 0 1%Z false (plain image) 1 3 2 2
                  {| shape := [1; 2]; data := [38; 206]%Z |}
                  {| shape := [1; 2]; data := [0; 1]%Z |}
                  {| shape := [3; 2; 2]; data := [0; 1; 1; 2; 0; 2; 2; 4; 0; 3; 3; 6]%Z |}
                  (match m_backward (net_model rgb_net) image
                           {| shape := [1; 2]; data := [0; 1]%Z |} with
                   | Done bw => bw
                   | Failed _ => ([], None)
                   end)
                  eq_refl eq_refl eq_refl eq_refl eq_refl eq_refl eq_refl eq_refl)
      as ((q & Hq & _ & Honce) & _ & Hshape).
    split; [|exact Hshape].
    apply Honce. injection Hq as <-. reflexivity.
Defined.

(** Witness of C8: the second of two calls on the example network. *)
Lemma successive_calls_identical_witness :
  (calculate_gradient (net_model rgb_net) 0 1 false
     (calculate_gradient (net_model rgb_net) 0 1 false (built rgb_net image)).2).1
  = Ok {| shape := [3; 2; 2]; data := [0; 1; 1; 2; 0; 2; 2; 4; 0; 3; 3; 6]%Z |}.
Proof.
  rewrite (successive_calls_identical (net_model rgb_net) (built rgb_net image) 0 1 false).
  reflexivity.
Defined.

(** Witness of C9: the example call returns shape (3, 2, 2) for the image
    of shape (1, 3, 2, 2). *)
Lemma buffer_keeps_input_shape_witness :
  (∃ n, shape image
        = n :: shape {| shape := [3; 2; 2];
                        data := [0; 1; 1; 2; 0; 2; 2; 4; 0; 3; 3; 6]%Z |}) ∧
  (∀ (w1 : World Z) module grad_out b g rest,
     self_gradient (w_self w1) = Some b →
     _record_gradient module (Some g :: rest) grad_out w1 =
     (Ok (), if decide (shape b = shape g)
             then with_self (set_gradient (Some g)) w1 else w1)).
Proof.
  apply (buffer_keeps_input_shape (net_model rgb_net) (built rgb_net image) 0 1
           (plain image)).
  - reflexivity.
  - reflexivity.
Defined.

(** Counterexample to C10 as stated: after a call on the example network the
    caller's image, which had no [.grad], holds the gradient the backward pass
    left there. *)
Lemma backward_writes_input_grad : ¬ only_requires_grad_changes.
Proof.
  intros Hc.
  destruct (Hc Z Z_scalar (net_model rgb_net) (built rgb_net image)
              (calculate_gradient (net_model rgb_net) 0 1 false (built rgb_net image)).2
              0 1%Z false (plain image)
              {| shape := [3; 2; 2]; data := [0; 1; 1; 2; 0; 2; 2; 4; 0; 3; 3; 6]%Z |}
              eq_refl eq_refl eq_refl)
    as (o' & Hlook & _ & _ & _ & _ & Hgrad).
  vm_compute in Hlook. injection Hlook as <-. discriminate Hgrad.
Qed.

(** The amended C10 on the example network. *)
Lemma input_requires_grad_in_place_witness :
  let w' := (calculate_gradient (net_model rgb_net) 0 1 false (built rgb_net image)).2 in
  length (w_heap w') = length (w_heap (built rgb_net image)) ∧
  (∃ o', w_heap w' !! 0 = Some o' ∧ requires_grad o' = true ∧
         t_val o' = image ∧ t_device o' = cpu ∧ t_grad_fn o' = false) ∧
  (∀ res,
     (calculate_gradient (net_model rgb_net) 0 1 false (built rgb_net image)).1 = Ok res →
     ∃ output seed bw,
       m_forward (net_model rgb_net) image = Done output ∧
       make_target output 1 = Ok seed ∧
       m_backward (net_model rgb_net) image seed = Done bw ∧
       w_heap w' !! 0 = Some (match bw.2 with
                              | Some g => add_grad g (set_flag (plain image))
                              | None => set_flag (plain image)
                              end)).
Proof.
  refine (input_requires_grad_in_place (net_model rgb_net) (built rgb_net image) 0 1 false
            (plain image) _ _).
  - reflexivity.
  - reflexivity.
Defined.



(** * Further properties of the constructor and of a call *)

Section MoreFacts.
Context {A : Type} `{Scalar A}.
Implicit Types (w : World A) (m : Model A) (o : TensorObj A).

Lemma default_last_cons {X} (x y : X) (l : list X) :
  default x (last (y :: l)) = default y (last l).
Proof. rewrite last_cons. by destruct (last l). Qed.

Lemma recorded_cons sh (ce : callback * BackwardEvent A) sched :
  recorded sh (ce :: sched) =
  match observed ce with
  | Some g => if decide (sh = shape g) then g :: recorded sh sched else recorded sh sched
  | None => recorded sh sched
  end.
Proof.
  unfold recorded. simpl. destruct (observed ce) as [g|]; [|done]. by case_decide.
Qed.

Lemma fold_hooks_recorded (sched : list (callback * BackwardEvent A)) (b : tensor A) b' :
  fold_hooks sched (Some b) = (Ok (), b') →
  b' = Some (default b (last (recorded (shape b) sched))).
Proof.
  revert b; induction sched as [|[[] ev] sched IH]; intros b.
  { by intros [= <-]. }
  rewrite recorded_cons. simpl. unfold hook_step, observed. simpl.
  destruct (ev_grad_in ev) as [|[g|] gi]; simpl; try done.
  destruct (decide (shape b = shape g)) as [Hs|Hs]; intros Hf.
  - apply IH in Hf as ->. rewrite default_last_cons. by rewrite Hs.
  - by apply IH in Hf as ->.
Qed.

(** X9: which gradient a returning call leaves in [self.gradient] and returns
    the first slice of: [grad_in[0]] of the last hook call of the backward
    pass whose shape is the shape of the input, and zeros of that shape when
    no hook call had it. *)
Theorem returned_gradient_is_last_match (m : Model A) (w w' : World A) (r : nat)
    (t : Z) (tm : bool) (o : TensorObj A) (res : tensor A) :
  w_heap w !! r = Some o →
  calculate_gradient m r t tm w = (Ok res, w') →
  ∃ output seed bw,
    m_forward m (t_val o) = Done output ∧
    make_target output t = Ok seed ∧
    m_backward m (t_val o) seed = Done bw ∧
    self_gradient (w_self w') =
      Some (default (zeros (shape (t_val o)))
              (last (recorded (shape (t_val o)) (scheduled (w_model w) bw.1)))) ∧
    finish tm (self_gradient (w_self w')) = Ok res.
Proof.
  intros Hr Hc.
  destruct (calculate_gradient_ok _ _ _ _ _ _ _ _ Hr Hc)
    as (out & seed & bw & b & _ & Hf & Hmt & _ & Hbw & Hfold & Hfin & Hbuf & _).
  exists out, seed, bw. apply fold_hooks_recorded in Hfold. simpl in Hfold.
  rewrite Hbuf. by subst b.
Qed.

(** ** The constructor *)

(** X1: [Backprop(model)] never fails.  It leaves the model in evaluation
    mode, on the device where it was and with the gradients it had; the
    object has no buffer yet, its nodes are the children of the model, its
    device is the accelerator when there is one; the tensors of the caller
    are not touched; one handle is taken per qualifying module. *)
Theorem constructor_postcondition (m : Model A) (cuda_available : bool) (w0 : World A) :
  (__init__ m cuda_available w0).1 = Ok () ∧
  ms_training (w_model (__init__ m cuda_available w0).2) = false ∧
  ms_device (w_model (__init__ m cuda_available w0).2) = ms_device (w_model w0) ∧
  ms_param_grad (w_model (__init__ m cuda_available w0).2) = ms_param_grad (w_model w0) ∧
  w_heap (__init__ m cuda_available w0).2 = w_heap w0 ∧
  w_self (__init__ m cuda_available w0).2 =
    {| self_nodes := children (m_root m);
       self_target_layer_type := Conv2dClass;
       self_target_layer_in_channels := 3;
       self_gradient := None;
       self_device := if cuda_available then cuda else cpu |} ∧
  w_next_handle (__init__ m cuda_available w0).2
    = w_next_handle w0 + length (targets (m_root m)).
Proof.
  rewrite init_unfold. unfold _register_hooks.
  destruct (register_loop (named_modules (m_root m))
              (with_self (init_fields m) (with_model set_eval w0))
              (named_modules_NoDup _))
    as (w' & -> & Hh & Hs & Ht & Hd & Hp & Hn & _ & _).
  simpl in *. rewrite Hs. by repeat split.
Qed.

Lemma constructor_postcondition_aux (m : Model A) (cuda_available : bool) (w0 : World A) :
  self_gradient (w_self (__init__ m cuda_available w0).2) = None ∧
  ∀ q, q ∈ targets (m_root m) →
       hooks_of (w_model (__init__ m cuda_available w0).2) (mod_id q) ≠ [].
Proof.
  split.
  - rewrite init_unfold.
    destruct (register_hooks_spec m (with_self (init_fields m) (with_model set_eval w0)))
      as (w' & -> & _ & Hs & _). simpl. by rewrite Hs.
  - intros q [k Hk]%list_elem_of_lookup.
    destruct (init_spec m cuda_available w0) as (_ & _ & _ & Hhit & _).
    rewrite (Hhit k q Hk). by destruct (hooks_of (w_model w0) (mod_id q)).
Qed.

Lemma fold_hooks_no_buffer (sched : list (callback * BackwardEvent A)) :
  sched ≠ [] → fold_hooks sched None = (Raise HookNoBuffer, None).
Proof. destruct sched as [|[[] ev] sched]; [done|]. done. Qed.

Lemma scheduled_not_nil (ms : ModelState A) (evs : list (BackwardEvent A)) ev :
  ev ∈ evs → hooks_of ms (ev_module ev) ≠ [] → scheduled ms evs ≠ [].
Proof.
  intros Hin Hh. induction evs as [|ev' evs IH]; [by apply elem_of_nil in Hin|].
  rewrite scheduled_cons. apply elem_of_cons in Hin as [<-|Hin].
  - destruct (hooks_of ms (ev_module ev)); [done|]. done.
  - intros [_ Hnil]%app_eq_nil. by apply IH.
Qed.

(** X2: between construction and the first call of [calculate_gradient] the
    buffer is [None], so a backward pass through the model that reaches a
    hooked layer (a training step of the caller, say) fails in the hook
    with an AttributeError. *)
Theorem backward_before_first_call_raises (m : Model A) (cuda_available : bool)
    (w0 : World A) (r : nat) (x output seed : tensor A)
    (bw : list (BackwardEvent A) * option (tensor A)) (q : Module)
    (ev : BackwardEvent A) :
  q ∈ targets (m_root m) →
  shape seed = shape output →
  m_backward m x seed = Done bw →
  ev ∈ bw.1 → ev_module ev = mod_id q →
  (backward m r x output seed (__init__ m cuda_available w0).2).1 = Raise HookNoBuffer.
Proof.
  intros Hq Hs Hbw Hev Hmod.
  destruct (constructor_postcondition_aux m cuda_available w0) as (Hself & Hhooks).
  rewrite backward_spec, decide_True, Hbw by done. simpl.
  rewrite Hself, fold_hooks_no_buffer; [done|].
  apply (scheduled_not_nil _ _ ev Hev). rewrite Hmod. by apply Hhooks.
Qed.

(** ** What a call changes and what it leaves *)

(** X3: whatever its outcome, a call registers and removes no hook on any
    module, leaves the mode of the model and the fields of the object other
    than the buffer as they were, and leaves the model on the device of the
    extractor. *)
Theorem call_keeps_registration (m : Model A) (w : World A) (r : nat) (t : Z)
    (tm : bool) :
  ms_hooks (w_model (calculate_gradient m r t tm w).2) = ms_hooks (w_model w) ∧
  ms_training (w_model (calculate_gradient m r t tm w).2) = ms_training (w_model w) ∧
  ms_device (w_model (calculate_gradient m r t tm w).2) = self_device (w_self w) ∧
  self_nodes (w_self (calculate_gradient m r t tm w).2) = self_nodes (w_self w) ∧
  self_target_layer_type (w_self (calculate_gradient m r t tm w).2)
    = self_target_layer_type (w_self w) ∧
  self_target_layer_in_channels (w_self (calculate_gradient m r t tm w).2)
    = self_target_layer_in_channels (w_self w) ∧
  self_device (w_self (calculate_gradient m r t tm w).2) = self_device (w_self w).
Proof.
  rewrite calculate_gradient_unfold, prepare_spec.
  destruct (w_heap w !! r) as [o|] eqn:Hr; [|done].
  assert (r < length (w_heap w)) as Hlt by by eapply lookup_lt_Some.
  destruct (decide (t_device o = self_device (w_self w))) as [Hd|Hd].
  - destruct (t_grad_fn o) eqn:Hg; [done|]. simpl.
    rewrite list_lookup_insert_eq by done. simpl.
    destruct (m_forward m (t_val o)) as [out|e]; simpl; [|done].
    destruct (make_target out t) as [seed|e]; simpl; [|done].
    rewrite backward_spec.
    destruct (decide (shape seed = shape out)) as [Hs|Hs]; simpl; [|done].
    destruct (m_backward m (t_val o) seed) as [bw|e]; simpl; [|done].
    destruct (fold_hooks _ _) as [[[]|e] b]; simpl; [|done].
    rewrite accumulate_grad_spec. destruct bw.2 as [g|]; simpl; [|done].
    rewrite list_lookup_insert_eq by done.
    by destruct (is_leaf _ && requires_grad _).
  - simpl. destruct (requires_grad o) eqn:Hg; simpl; [done|].
    rewrite list_lookup_insert_eq by (rewrite length_app; simpl; lia). simpl.
    destruct (m_forward m (t_val o)) as [out|e]; simpl; [|done].
    destruct (make_target out t) as [seed|e]; simpl; [|done].
    rewrite backward_spec.
    destruct (decide (shape seed = shape out)) as [Hs|Hs]; simpl; [|done].
    destruct (m_backward m (t_val o) seed) as [bw|e]; simpl; [|done].
    destruct (fold_hooks _ _) as [[[]|e] b]; simpl; [|done].
    rewrite accumulate_grad_spec. destruct bw.2 as [g|]; simpl; [|done].
    rewrite list_lookup_insert_eq by (rewrite length_app; simpl; lia).
    by destruct (is_leaf _ && requires_grad _).
Qed.

(** X4: an input that is a non-leaf after line 61 (a computed tensor on
    the device of the extractor, or a tensor on another device that requires
    gradient, whose copy is computed from it) makes line 62 raise a
    RuntimeError.  By then the parameters' gradients are cleared; the buffer
    and the caller's tensor are as they were. *)
Theorem non_leaf_input_raises (m : Model A) (w : World A) (r : nat) (t : Z)
    (tm : bool) (o : TensorObj A) :
  w_heap w !! r = Some o →
  non_leaf_after_move (self_device (w_self w)) o = true →
  (calculate_gradient m r t tm w).1 = Raise RequiresGradOnNonLeaf ∧
  w_heap (calculate_gradient m r t tm w).2 !! r = Some o ∧
  ms_param_grad (w_model (calculate_gradient m r t tm w).2) = [] ∧
  self_gradient (w_self (calculate_gradient m r t tm w).2) = self_gradient (w_self w).
Proof.
  intros Hr Hn. rewrite calculate_gradient_unfold, prepare_spec, Hr.
  unfold non_leaf_after_move in Hn.
  destruct (decide (t_device o = self_device (w_self w))) as [Hd|Hd].
  - rewrite Hn. done.
  - simpl. rewrite Hn. simpl. split; [done|]. split; [|done].
    apply lookup_app_l_Some, Hr.
Qed.

(** X5: an input on another device than the extractor's that does not
    require gradient is copied: whatever the outcome of the call, the caller's
    tensor is exactly as it was (no flag, no [.grad]), and one tensor was
    created, on the device, with the same elements, a leaf that requires
    gradient. *)
Theorem other_device_input_left_alone (m : Model A) (w : World A) (r : nat) (t : Z)
    (tm : bool) (o : TensorObj A) :
  w_heap w !! r = Some o →
  t_device o ≠ self_device (w_self w) →
  requires_grad o = false →
  w_heap (calculate_gradient m r t tm w).2 !! r = Some o ∧
  length (w_heap (calculate_gradient m r t tm w).2) = S (length (w_heap w)) ∧
  ∃ o', w_heap (calculate_gradient m r t tm w).2 !! length (w_heap w) = Some o' ∧
        t_val o' = t_val o ∧ t_device o' = self_device (w_self w) ∧
        t_flag o' = true ∧ t_grad_fn o' = false.
Proof.
  intros Hr Hd Hg. rewrite calculate_gradient_unfold, prepare_spec, Hr.
  assert (r < length (w_heap w)) as Hlt by by eapply lookup_lt_Some.
  rewrite decide_False by done. simpl. rewrite Hg. simpl.
  set (dev := self_device (w_self w)).
  set (h1 := <[length (w_heap w):=set_flag (moved dev o)]> (w_heap w ++ [moved dev o])).
  assert (h1 !! r = Some o) as Hl1.
  { unfold h1. rewrite list_lookup_insert_ne by lia. by apply lookup_app_l_Some. }
  assert (length h1 = S (length (w_heap w))) as Hlen1.
  { unfold h1. rewrite length_insert, length_app. simpl. lia. }
  assert (h1 !! length (w_heap w) = Some (set_flag (moved dev o))) as Hl2.
  { unfold h1. apply list_lookup_insert_eq. rewrite length_app. simpl. lia. }
  assert (∃ o', h1 !! length (w_heap w) = Some o' ∧ t_val o' = t_val o ∧
                t_device o' = dev ∧ t_flag o' = true ∧ t_grad_fn o' = false) as Hnew.
  { eexists. split; [exact Hl2|]. simpl. by rewrite Hg. }
  rewrite Hl2. simpl.
  destruct (m_forward m (t_val o)) as [out|e]; simpl; [|done].
  destruct (make_target out t) as [seed|e]; simpl; [|done].
  rewrite backward_spec.
  destruct (decide (shape seed = shape out)) as [Hs|Hs]; simpl; [|done].
  destruct (m_backward m (t_val o) seed) as [bw|e]; simpl; [|done].
  destruct (fold_hooks _ _) as [[[]|e] b]; simpl; [|done].
  rewrite accumulate_grad_spec. destruct bw.2 as [g|]; simpl; [|done].
  fold h1. rewrite Hl2.
  assert (is_leaf (set_flag (moved dev o)) && requires_grad (set_flag (moved dev o)) = true)
    as -> by (unfold is_leaf, requires_grad; simpl; by rewrite Hg).
  simpl. fold h1. rewrite list_lookup_insert_ne by lia.
  rewrite length_insert. split; [done|]. split; [done|].
  eexists. split; [apply list_lookup_insert_eq; lia|]. simpl. by rewrite Hg.
Qed.

(** ** Failures of a call *)

Lemma fold_hooks_errors (l : list (callback * BackwardEvent A)) b e :
  (fold_hooks l b).1 = Raise e →
  e = HookNoBuffer ∨ e = HookNoGradIn ∨ e = HookGradInNone.
Proof.
  revert b; induction l as [|[[] ev] l IH]; intros b; simpl; [done|].
  unfold hook_step; simpl. destruct b as [b|]; [|intros [= <-]; auto].
  destruct (ev_grad_in ev) as [|[g|] gi]; simpl; try (intros [= <-]; auto).
  case_decide; apply IH.
Qed.

Lemma finish_errors tm (b : option (tensor A)) e :
  finish tm b = Raise e →
  e = HookNoBuffer ∨ e = BatchIndexError ∨ e = EmptyChannelMax.
Proof.
  unfold finish, select0, max_dim0_keepdim. destruct b as [b|]; [|intros [= <-]; auto].
  destruct (shape b) as [|n rest]; [intros [= <-]; auto|].
  case_decide; [intros [= <-]; auto|]. simpl.
  destruct tm; [|done]. destruct rest; [done|]. case_decide; [|done].
  intros [= <-]. auto.
Qed.

Lemma make_target_shape (output seed : tensor A) t :
  make_target output t = Ok seed → ∃ k, last (shape output) = Some k ∧ shape seed = [1; k].
Proof. intros (k & j & Hk & _ & ->)%make_target_spec. by exists k. Qed.

(** X6: the seed always has shape [(1, k)], so scores of any other shape
    (a batch of several images, a bare vector of [k] scores) make
    [output.backward] raise a RuntimeError: once the forward pass has given
    scores with last dimension [k] and [target_class] is a valid index, the
    call fails there exactly when the shape of the scores is not [(1, k)]. *)
Theorem scores_must_be_one_row (m : Model A) (w : World A) (r : nat) (t : Z)
    (tm : bool) (o : TensorObj A) (output : tensor A) (k : nat) :
  w_heap w !! r = Some o →
  non_leaf_after_move (self_device (w_self w)) o = false →
  m_forward m (t_val o) = Done output →
  last (shape output) = Some k →
  (- Z.of_nat k ≤ t < Z.of_nat k)%Z →
  ((calculate_gradient m r t tm w).1 = Raise SeedShapeMismatch
   ↔ shape output ≠ [1; k]).
Proof.
  intros Hr Hn Hf Hk Ht.
  rewrite calculate_gradient_outcome, Hr. unfold outcome. rewrite Hn, Hf. simpl.
  destruct (make_target output t) as [seed|e] eqn:Hmt.
  2:{ apply (make_target_index_error output t k Hk) in Ht as [].
      revert Hmt. unfold make_target, last_dim, set_row0. rewrite Hk. simpl.
      by destruct (normalize_index k t). }
  apply make_target_shape in Hmt as (k' & Hk' & Hseed).
  rewrite Hk in Hk'. injection Hk' as <-. rewrite Hseed.
  destruct (decide ([1; k] = shape output)) as [Heq|Hne].
  - split; [|by intros []].
    destruct (m_backward m (t_val o) seed) as [bw|c]; simpl; [|done].
    destruct (fold_hooks _ _) as [[[]|e] b] eqn:Hfold; simpl.
    + intros Hfin. apply finish_errors in Hfin as [|[|]]; done.
    + intros [= ->]. pose proof (fold_hooks_errors _ _ SeedShapeMismatch
        (f_equal fst Hfold)) as [|[|]]; done.
  - split; [|done]. intros _ Heq. by apply Hne.
Qed.

(** X7: a negative [target_class] counts from the end, as in any Python
    indexing: with [k] classes, the call for [target_class = t] in [-k .. -1]
    is the call for [target_class = t + k], in what it returns and in what
    it leaves. *)
Theorem negative_index_counts_from_end (m : Model A) (w : World A) (r : nat) (t : Z)
    (tm : bool) (o : TensorObj A) (output : tensor A) (k : nat) :
  w_heap w !! r = Some o →
  m_forward m (t_val o) = Done output →
  last (shape output) = Some k →
  (- Z.of_nat k ≤ t < 0)%Z →
  calculate_gradient m r t tm w = calculate_gradient m r (t + Z.of_nat k) tm w.
Proof.
  intros Hr Hf Hk Ht.
  assert (make_target output t = make_target output (t + Z.of_nat k)) as Hmt.
  { unfold make_target, last_dim, set_row0. rewrite Hk. simpl.
    assert (normalize_index k t = normalize_index k (t + Z.of_nat k)) as ->; [|done].
    unfold normalize_index. rewrite (decide_False (P:=(0 ≤ t < _)%Z)) by lia.
    rewrite (decide_True (P:=(- _ ≤ t < 0)%Z)) by lia.
    rewrite (decide_True (P:=(0 ≤ t + _ < _)%Z)) by lia. done. }
  rewrite !calculate_gradient_unfold, prepare_spec, Hr.
  assert (r < length (w_heap w)) as Hlt by by eapply lookup_lt_Some.
  destruct (decide (t_device o = self_device (w_self w))) as [Hd|Hd].
  - destruct (t_grad_fn o); [done|]. simpl.
    rewrite list_lookup_insert_eq by done. simpl. rewrite Hf. simpl. by rewrite Hmt.
  - simpl. destruct (requires_grad o); [done|]. simpl.
    rewrite list_lookup_insert_eq by (rewrite length_app; simpl; lia). simpl.
    rewrite Hf. simpl. by rewrite Hmt.
Qed.

(** X8: a call never returns on an empty input: when it returns, the
    input has a first (batch) dimension and that dimension is not 0, and the
    result has the remaining dimensions, the first of them replaced by 1
    under [take_max], in which case it was not 0 either. *)
Theorem returning_call_had_a_batch (m : Model A) (w : World A) (r : nat) (t : Z)
    (tm : bool) (o : TensorObj A) (res : tensor A) :
  w_heap w !! r = Some o →
  (calculate_gradient m r t tm w).1 = Ok res →
  ∃ n rest, shape (t_val o) = n :: rest ∧ 0 < n ∧
    shape res = (if tm then match rest with
                            | [] => []
                            | _ :: rest' => 1 :: rest'
                            end
                 else rest) ∧
    (tm = true → ∀ c rest', rest = c :: rest' → 0 < c).
Proof.
  intros Hr Hc. rewrite calculate_gradient_outcome, Hr in Hc.
  apply outcome_inv in Hc as (b & Hb & Hfin). unfold finish in Hfin.
  destruct (select0 b) as [g|e] eqn:Hsel; [|done].
  apply select0_shape in Hsel as (n & Hn & Hsh & _). rewrite Hb in Hsh.
  exists n, (shape g). split; [done|]. split; [lia|].
  destruct tm.
  - unfold max_dim0_keepdim in Hfin. destruct (shape g) as [|c rest'] eqn:Hg.
    + injection Hfin as <-. split; [done|]. by intros _ c rest' [=].
    + destruct (decide (c = 0)); [done|]. injection Hfin as <-.
      split; [done|]. intros _ c' rest'' [= <- _]. lia.
  - injection Hfin as ->. split; [done|]. by intros [=].
Qed.

(** ** Calls in sequence and hooks registered again *)

(** X10: [model.zero_grad()] clears the gradients of the parameters at each
    call, nothing clears the [.grad] of the input: after two returning calls
    on an input that sits on the device of the extractor, the parameters hold
    one backward pass and the caller's tensor has received the gradient that
    reaches the input twice. *)
Theorem input_grad_accumulates_over_calls (m : Model A) (w w1 w2 : World A) (r : nat)
    (t : Z) (tm : bool) (o : TensorObj A) (res1 res2 : tensor A) :
  w_heap w !! r = Some o →
  t_device o = self_device (w_self w) →
  calculate_gradient m r t tm w = (Ok res1, w1) →
  calculate_gradient m r t tm w1 = (Ok res2, w2) →
  ∃ output seed bw,
    m_forward m (t_val o) = Done output ∧
    make_target output t = Ok seed ∧
    m_backward m (t_val o) seed = Done bw ∧
    ms_param_grad (w_model w2) = [(t_val o, seed)] ∧
    w_heap w2 !! r = Some (match bw.2 with
                           | Some g => add_grad g (add_grad g (set_flag o))
                           | None => set_flag o
                           end).
Proof.
  intros Hr Hd Hc1 Hc2.
  destruct (calculate_gradient_ok _ _ _ _ _ _ _ _ Hr Hc1)
    as (out & seed & bw & b & _ & Hf & Hmt & _ & Hbw & _ & _ & _ & _ & Hobj).
  specialize (Hobj Hd).
  pose proof (calculate_gradient_frame m r t tm w) as (_ & Hdev & _).
  rewrite Hc1 in Hdev. simpl in Hdev.
  set (o1 := match bw.2 with
             | Some g => add_grad g (set_flag o)
             | None => set_flag o
             end) in *.
  assert (t_val o1 = t_val o ∧ t_device o1 = t_device o) as [Hv1 Hd1]
    by (unfold o1; by destruct bw.2).
  destruct (calculate_gradient_ok _ _ _ _ _ _ _ _ Hobj Hc2)
    as (out' & seed' & bw' & b' & _ & Hf' & Hmt' & _ & Hbw' & _ & _ & _ & Hpg & Hobj').
  rewrite Hv1 in Hf', Hbw', Hpg. rewrite Hf in Hf'. injection Hf' as <-.
  rewrite Hmt in Hmt'. injection Hmt' as <-.
  rewrite Hbw in Hbw'. injection Hbw' as <-.
  exists out, seed, bw. repeat split; try done.
  rewrite Hobj' by (rewrite Hd1, Hdev; exact Hd).
  unfold o1. by destruct bw.2.
Qed.

Lemma fold_hooks_app (l1 l2 : list (callback * BackwardEvent A)) b :
  fold_hooks (l1 ++ l2) b =
  match fold_hooks l1 b with
  | (Ok _, b') => fold_hooks l2 b'
  | (Raise e, b') => (Raise e, b')
  end.
Proof.
  revert b; induction l1 as [|ce l1 IH]; intros b; simpl; [done|].
  destruct (hook_step b ce) as [[[]|e] b']; [apply IH|done].
Qed.

Lemma hook_step_twice b (ce : callback * BackwardEvent A) b' :
  hook_step b ce = (Ok (), b') → hook_step b' ce = (Ok (), b').
Proof.
  destruct ce as [[] ev]. unfold hook_step. simpl. destruct b as [b|]; [|done].
  destruct (ev_grad_in ev) as [|[g|] gi]; try done.
  destruct (decide (shape b = shape g)) as [Hs|Hs]; intros [= <-].
  - by rewrite decide_True.
  - by rewrite decide_False.
Qed.

(** Several hooks on one module are several calls of the same closure on the
    same event: they do what one call does. *)
Lemma fold_hooks_repeat (hs : list (nat * callback)) (ev : BackwardEvent A) b :
  hs ≠ [] →
  fold_hooks ((λ hc : nat * callback, (hc.2, ev)) <$> hs) b
  = fold_hooks [(RecordGradient, ev)] b.
Proof.
  intros Hne. destruct hs as [|[h []] hs]; [done|]. clear Hne.
  rewrite fmap_cons. simpl.
  destruct (hook_step b (RecordGradient, ev)) as [[[]|e] b'] eqn:Hstep; [|done].
  apply hook_step_twice in Hstep.
  induction hs as [|[h' []] hs IH]; [done|].
  rewrite fmap_cons. simpl. by rewrite Hstep.
Qed.

Lemma fold_hooks_same_hooked (ms ms' : ModelState A) (evs : list (BackwardEvent A)) b :
  (∀ i, hooks_of ms i = [] ↔ hooks_of ms' i = []) →
  fold_hooks (scheduled ms evs) b = fold_hooks (scheduled ms' evs) b.
Proof.
  intros Hsame. revert b. induction evs as [|ev evs IH]; intros b; [done|].
  rewrite !scheduled_cons, !fold_hooks_app.
  assert (fold_hooks ((λ hc : nat * callback, (hc.2, ev)) <$> hooks_of ms (ev_module ev)) b
          = fold_hooks ((λ hc : nat * callback, (hc.2, ev)) <$> hooks_of ms' (ev_module ev)) b)
    as ->.
  { destruct (hooks_of ms (ev_module ev)) as [|h hs] eqn:Hh.
    - apply Hsame in Hh. by rewrite Hh.
    - rewrite fold_hooks_repeat by done. rewrite fold_hooks_repeat; [done|].
      intros Hnil. apply Hsame in Hnil. by rewrite Hh in Hnil. }
  destruct (fold_hooks _ b) as [[[]|e] b']; [apply IH|done].
Qed.

Lemma outcome_same_hooked m (ms ms' : ModelState A) dev ro t tm :
  (∀ i, hooks_of ms i = [] ↔ hooks_of ms' i = []) →
  outcome m ms dev ro t tm = outcome m ms' dev ro t tm.
Proof.
  intros Hsame. unfold outcome. destruct ro as [o|]; [|done].
  destruct (non_leaf_after_move dev o); [done|].
  destruct (forward_result _) as [out|e]; [|done].
  destruct (make_target out t) as [seed|e]; [|done].
  case_decide; [|done].
  destruct (backward_result _) as [bw|e]; [|done].
  by rewrite (fold_hooks_same_hooked ms ms').
Qed.

(** X11: [_register_hooks] keeps no trace of what it registered and can run
    again on the same object; the hooks then pile up (each qualifying module
    has one more), and the calls return what they returned before: a second
    hook on a module repeats the assignment of the first. *)
Theorem registering_again_changes_no_result (m : Model A) (cuda_available : bool)
    (w0 : World A) (r : nat) (t : Z) (tm : bool) :
  let w := (__init__ m cuda_available w0).2 in
  let w2 := (_register_hooks m w).2 in
  (∀ q, q ∈ targets (m_root m) →
     length (hooks_of (w_model w2) (mod_id q))
     = S (length (hooks_of (w_model w) (mod_id q)))) ∧
  (calculate_gradient m r t tm w2).1 = (calculate_gradient m r t tm w).1.
Proof.
  simpl. set (w := (__init__ m cuda_available w0).2).
  destruct (register_hooks_spec m w) as (w2 & Hrun & Hheap & Hself & _ & Hhit & Hmiss).
  rewrite Hrun. simpl. split.
  - intros q [k Hk]%list_elem_of_lookup. rewrite (Hhit k q Hk), length_app. simpl. lia.
  - rewrite !calculate_gradient_outcome, Hheap, Hself.
    apply outcome_same_hooked. intros i.
    destruct (decide (i ∈ mod_id <$> targets (m_root m))) as [Hin|Hout].
    + apply list_elem_of_fmap in Hin as (q & -> & Hq).
      pose proof (constructor_postcondition_aux m cuda_available w0) as [_ Hne].
      specialize (Hne q Hq). fold w in Hne.
      apply list_elem_of_lookup in Hq as [k Hk]. rewrite (Hhit k q Hk).
      split; [|done]. by intros []%app_eq_nil.
    + by rewrite (Hmiss i Hout).
Qed.

(** X12: [take_max] only selects what is returned.  The two calls leave the
    same world, and when the call with [take_max=True] returns, the call with
    [take_max=False] returns too, a tensor whose maximum over its first
    dimension is the result of the first: the reading of C3 from the other
    side, for an input of any rank. *)
Theorem take_max_changes_only_the_result (m : Model A) (w : World A) (r : nat) (t : Z) :
  (calculate_gradient m r t true w).2 = (calculate_gradient m r t false w).2 ∧
  (∀ g', (calculate_gradient m r t true w).1 = Ok g' →
     ∃ g, (calculate_gradient m r t false w).1 = Ok g ∧ max_dim0_keepdim g = Ok g').
Proof.
  split.
  - rewrite !calculate_gradient_unfold.
    destruct (prepare r w) as [[r'|e] w']; [|done].
    destruct (w_heap w' !! r') as [o|]; [|done].
    destruct (forward_result _) as [out|e]; [|done].
    destruct (make_target out t) as [seed|e]; [|done].
    by destruct (backward m r' (t_val o) out seed w') as [[[]|e] w''].
  - intros g'. rewrite !calculate_gradient_outcome.
    destruct (w_heap w !! r) as [o|]; [|done]. intros Hc.
    unfold outcome in Hc |- *.
    destruct (non_leaf_after_move _ _); [done|].
    destruct (forward_result _) as [out|e]; [|done].
    destruct (make_target out t) as [seed|e]; [|done].
    case_decide; [|done].
    destruct (backward_result _) as [bw|e]; [|done].
    destruct (fold_hooks _ _) as [[[]|e] b0]; [|done].
    unfold finish in Hc |- *. destruct b0 as [b0|]; [|done].
    destruct (select0 b0) as [g|e]; [|done]. by exists g.
Qed.

Lemma fold_hooks_observed (sched : list (callback * BackwardEvent A)) b b' :
  fold_hooks sched b = (Ok (), b') → Forall (λ ce, is_Some (observed ce)) sched.
Proof.
  revert b; induction sched as [|[[] ev] sched IH]; intros b; simpl; [by constructor|].
  unfold hook_step. simpl. destruct b as [b|]; [|done].
  destruct (ev_grad_in ev) as [|[g|] gi] eqn:Hin; try done.
  intros Hf. constructor.
  - unfold observed. simpl. rewrite Hin. by eexists.
  - destruct (decide (shape b = shape g)); by eapply IH.
Qed.

(** X13: the hook reads [grad_in[0].shape] without a test, so a call
    returns only if every hook call of its backward pass was handed a tensor
    as [grad_in[0]]: a hooked layer whose input needs no gradient ([None]
    there) or that receives an empty tuple makes the call fail in the hook. *)
Theorem returning_call_saw_tensors (m : Model A) (w w' : World A) (r : nat)
    (t : Z) (tm : bool) (o : TensorObj A) (res : tensor A) :
  w_heap w !! r = Some o →
  calculate_gradient m r t tm w = (Ok res, w') →
  ∃ output seed bw,
    m_forward m (t_val o) = Done output ∧
    make_target output t = Ok seed ∧
    m_backward m (t_val o) seed = Done bw ∧
    Forall (λ ce, is_Some (observed ce)) (scheduled (w_model w) bw.1).
Proof.
  intros Hr Hc.
  destruct (calculate_gradient_ok _ _ _ _ _ _ _ _ Hr Hc)
    as (out & seed & bw & b & _ & Hf & Hmt & _ & Hbw & Hfold & _).
  exists out, seed, bw. repeat split; try done. by eapply fold_hooks_observed.
Qed.

(** X14: a call that fails before the engine starts its backward pass
    (an exception of the model in the forward pass, scores without dimension,
    an index out of range, scores that are not one row) has already wiped
    what the previous call left: the buffer is the zero tensor of the shape
    of the input and the parameters hold no gradient. *)
Theorem failed_call_leaves_zero_buffer (m : Model A) (w : World A) (r : nat) (t : Z)
    (tm : bool) (o : TensorObj A) (e : exn) :
  w_heap w !! r = Some o →
  (calculate_gradient m r t tm w).1 = Raise e →
  (∃ c, e = ForwardError c) ∨ e = OutputHasNoDims ∨ e = SeedIndexError ∨
    e = SeedShapeMismatch →
  self_gradient (w_self (calculate_gradient m r t tm w).2)
    = Some (zeros (shape (t_val o))) ∧
  ms_param_grad (w_model (calculate_gradient m r t tm w).2) = [].
Proof.
  intros Hr. rewrite calculate_gradient_unfold, prepare_spec, Hr.
  assert (r < length (w_heap w)) as Hlt by by eapply lookup_lt_Some.
  assert (∀ (l : list (callback * BackwardEvent A)) b e', (fold_hooks l b).1 = Raise e' →
            ¬ ((∃ c, e' = ForwardError c) ∨ e' = OutputHasNoDims ∨ e' = SeedIndexError ∨
               e' = SeedShapeMismatch)) as Hhook.
  { intros l b e' [->|[->| ->]]%fold_hooks_errors [[c [=]]|[[=]|[[=]|[=]]]]. }
  assert (∀ (b : option (tensor A)) e', finish tm b = Raise e' →
            ¬ ((∃ c, e' = ForwardError c) ∨ e' = OutputHasNoDims ∨ e' = SeedIndexError ∨
               e' = SeedShapeMismatch)) as Hfin.
  { intros b e' [->|[->| ->]]%finish_errors [[c [=]]|[[=]|[[=]|[=]]]]. }
  destruct (decide (t_device o = self_device (w_self w))) as [Hd|Hd].
  - destruct (t_grad_fn o) eqn:Hg.
    { simpl. intros [= <-] [[c [=]]|[[=]|[[=]|[=]]]]. }
    simpl. rewrite list_lookup_insert_eq by done. simpl.
    destruct (m_forward m (t_val o)) as [out|c]; simpl; [|done].
    destruct (make_target out t) as [seed|e0]; simpl; [|done].
    rewrite backward_spec.
    destruct (decide (shape seed = shape out)) as [Hs|Hs]; simpl; [|done].
    destruct (m_backward m (t_val o) seed) as [bw|c]; simpl.
    2:{ intros [= <-] [[c' [=]]|[[=]|[[=]|[=]]]]. }
    destruct (fold_hooks _ _) as [[[]|e0] b] eqn:Hfold; simpl.
    2:{ intros [= <-] He. by destruct (Hhook _ _ _ (f_equal fst Hfold)). }
    rewrite accumulate_grad_spec. destruct bw.2 as [g|]; simpl.
    + rewrite list_lookup_insert_eq by done.
      destruct (is_leaf _ && requires_grad _); simpl;
        intros Hf He; by destruct (Hfin _ _ Hf).
    + intros Hf He; by destruct (Hfin _ _ Hf).
  - simpl. destruct (requires_grad o) eqn:Hg.
    { simpl. intros [= <-] [[c [=]]|[[=]|[[=]|[=]]]]. }
    simpl. rewrite list_lookup_insert_eq by (rewrite length_app; simpl; lia). simpl.
    destruct (m_forward m (t_val o)) as [out|c]; simpl; [|done].
    destruct (make_target out t) as [seed|e0]; simpl; [|done].
    rewrite backward_spec.
    destruct (decide (shape seed = shape out)) as [Hs|Hs]; simpl; [|done].
    destruct (m_backward m (t_val o) seed) as [bw|c]; simpl.
    2:{ intros [= <-] [[c' [=]]|[[=]|[[=]|[=]]]]. }
    destruct (fold_hooks _ _) as [[[]|e0] b] eqn:Hfold; simpl.
    2:{ intros [= <-] He. by destruct (Hhook _ _ _ (f_equal fst Hfold)). }
    rewrite accumulate_grad_spec. destruct bw.2 as [g|]; simpl.
    + rewrite list_lookup_insert_eq by (rewrite length_app; simpl; lia).
      destruct (is_leaf _ && requires_grad _); simpl;
        intros Hf He; by destruct (Hfin _ _ Hf).
    + intros Hf He; by destruct (Hfin _ _ Hf).
Qed.
End MoreFacts.

(** * The further properties on concrete networks *)

(** Witness of X2: a backward pass on the example network right after
    construction. *)
Lemma backward_before_first_call_raises_witness :
  (backward (net_model rgb_net) 0 image
     {| shape := [1; 2]; data := [38; 206]%Z |}
     {| shape := [1; 2]; data := [0; 1]%Z |}
     (__init__ (net_model rgb_net) false (loaded [plain image])).2).1
  = Raise HookNoBuffer.
Proof.
  refine (backward_before_first_call_raises (net_model rgb_net) false
            (loaded [plain image]) 0 image
            {| shape := [1; 2]; data := [38; 206]%Z |}
            {| shape := [1; 2]; data := [0; 1]%Z |}
            ([{| ev_module := 2;
                 ev_grad_in := [Some {| shape := [1; 1; 2; 2]; data := [0; 1; 1; 2]%Z |}];
                 ev_grad_out := [Some {| shape := [1; 2]; data := [0; 1]%Z |}] |};
              {| ev_module := 1;
                 ev_grad_in := [Some {| shape := [1; 3; 2; 2];
                                        data := [0; 1; 1; 2; 0; 2; 2; 4; 0; 3; 3; 6]%Z |}];
                 ev_grad_out := [Some {| shape := [1; 1; 2; 2];
                                         data := [0; 1; 1; 2]%Z |}] |}],
             Some {| shape := [1; 3; 2; 2];
                     data := [0; 1; 1; 2; 0; 2; 2; 4; 0; 3; 3; 6]%Z |})
            (Mod 1 (Conv2d 3 1) [])
            {| ev_module := 1;
               ev_grad_in := [Some {| shape := [1; 3; 2; 2];
                                      data := [0; 1; 1; 2; 0; 2; 2; 4; 0; 3; 3; 6]%Z |}];
               ev_grad_out := [Some {| shape := [1; 1; 2; 2];
                                       data := [0; 1; 1; 2]%Z |}] |}
            _ _ _ _ _).
  - apply (list_elem_of_lookup_2 _ 0). reflexivity.
  - reflexivity.
  - reflexivity.
  - apply (list_elem_of_lookup_2 _ 1). reflexivity.
  - reflexivity.
Defined.

(** Witness of X4: a computed tensor as input. *)
Lemma non_leaf_input_raises_witness :
  (calculate_gradient (net_model rgb_net) 0 1 false
     (built_with rgb_net (computed image))).1 = Raise RequiresGradOnNonLeaf ∧
  w_heap (calculate_gradient (net_model rgb_net) 0 1 false
            (built_with rgb_net (computed image))).2 !! 0 = Some (computed image) ∧
  ms_param_grad (w_model (calculate_gradient (net_model rgb_net) 0 1 false
                            (built_with rgb_net (computed image))).2) = [] ∧
  self_gradient (w_self (calculate_gradient (net_model rgb_net) 0 1 false
                           (built_with rgb_net (computed image))).2)
  = self_gradient (w_self (built_with rgb_net (computed image))).
Proof.
  refine (non_leaf_input_raises (net_model rgb_net) (built_with rgb_net (computed image))
            0 1 false (computed image) _ _).
  - reflexivity.
  - reflexivity.
Defined.

(** Witness of X5: an image on the cpu given to an extractor on the
    accelerator. *)
Lemma other_device_input_left_alone_witness :
  w_heap (calculate_gradient (net_model rgb_net) 0 1 false
            (built_on_cuda rgb_net (plain image))).2 !! 0 = Some (plain image) ∧
  length (w_heap (calculate_gradient (net_model rgb_net) 0 1 false
                    (built_on_cuda rgb_net (plain image))).2)
  = S (length (w_heap (built_on_cuda rgb_net (plain image)))) ∧
  ∃ o', w_heap (calculate_gradient (net_model rgb_net) 0 1 false
                  (built_on_cuda rgb_net (plain image))).2
        !! length (w_heap (built_on_cuda rgb_net (plain image))) = Some o' ∧
        t_val o' = image ∧
        t_device o' = self_device (w_self (built_on_cuda rgb_net (plain image))) ∧
        t_flag o' = true ∧ t_grad_fn o' = false.
Proof.
  refine (other_device_input_left_alone (net_model rgb_net)
            (built_on_cuda rgb_net (plain image)) 0 1 false (plain image) _ _ _).
  - reflexivity.
  - discriminate.
  - reflexivity.
Defined.

(** Witness of X6: a batch of two images gives scores of shape (2, 2). *)
Lemma scores_must_be_one_row_witness :
  (calculate_gradient (net_model rgb_net) 0 1 false
     (built_with rgb_net (plain image_pair))).1 = Raise SeedShapeMismatch
  ↔ [2; 2] ≠ [1; 2].
Proof.
  refine (scores_must_be_one_row (net_model rgb_net)
            (built_with rgb_net (plain image_pair)) 0 1 false (plain image_pair)
            {| shape := [2; 2]; data := [38; 206; 110; 494]%Z |} 2 _ _ _ _ _).
  - reflexivity.
  - reflexivity.
  - reflexivity.
  - reflexivity.
  - lia.
Defined.

(** Witness of X7: class -1 of 2 is class 1. *)
Lemma negative_index_counts_from_end_witness :
  calculate_gradient (net_model rgb_net) 0 (-1) false (built rgb_net image)
  = calculate_gradient (net_model rgb_net) 0 (-1 + Z.of_nat 2) false (built rgb_net image).
Proof.
  refine (negative_index_counts_from_end (net_model rgb_net) (built rgb_net image)
            0 (-1) false (plain image) {| shape := [1; 2]; data := [38; 206]%Z |} 2
            _ _ _ _).
  - reflexivity.
  - reflexivity.
  - reflexivity.
  - lia.
Defined.

(** Witness of X8: the example call with [take_max]. *)
Lemma returning_call_had_a_batch_witness :
  ∃ n rest, shape image = n :: rest ∧ 0 < n ∧
    shape {| shape := [1; 2; 2]; data := [0; 3; 3; 6]%Z |}
    = match rest with
      | [] => []
      | _ :: rest' => 1 :: rest'
      end ∧
    (true = true → ∀ c rest', rest = c :: rest' → 0 < c).
Proof.
  refine (returning_call_had_a_batch (net_model rgb_net) (built rgb_net image) 0 1 true
            (plain image) {| shape := [1; 2; 2]; data := [0; 3; 3; 6]%Z |} _ _).
  - reflexivity.
  - reflexivity.
Defined.

(** Witness of X9: on the network that applies its convolution twice both
    hook calls see the shape of the image; the buffer holds the second one,
    the gradient that enters the first application. *)
Lemma returned_gradient_is_last_match_witness :
  ∃ output seed bw,
    m_forward (net_model twice_net) image = Done output ∧
    make_target output 1 = Ok seed ∧
    m_backward (net_model twice_net) image seed = Done bw ∧
    self_gradient
      (w_self (calculate_gradient (net_model twice_net) 0 1 false
                 (built twice_net image)).2) =
      Some (default (zeros (shape image))
              (last (recorded (shape image)
                       (scheduled (w_model (built twice_net image)) bw.1)))) ∧
    finish false
      (self_gradient
         (w_self (calculate_gradient (net_model twice_net) 0 1 false
                    (built twice_net image)).2))
    = Ok {| shape := [3; 2; 2]; data := [0; 0; 0; 4; 1; 0; 0; 4; 0; 0; 0; 2]%Z |}.
Proof.
  refine (returned_gradient_is_last_match (net_model twice_net) (built twice_net image)
            (calculate_gradient (net_model twice_net) 0 1 false (built twice_net image)).2
            0 1 false (plain image)
            {| shape := [3; 2; 2]; data := [0; 0; 0; 4; 1; 0; 0; 4; 0; 0; 0; 2]%Z |} _ _).
  - reflexivity.
  - reflexivity.
Defined.

(** The buffer of that call, computed: the second of the two recorded
    gradients. *)
Example twice_net_records_both :
  recorded (shape image)
    (scheduled (w_model (built twice_net image))
       (match m_backward (net_model twice_net) image
                {| shape := [1; 2]; data := [0; 1]%Z |} with
        | Done bw => bw.1
        | Failed _ => []
        end))
  = [{| shape := [1; 3; 2; 2]; data := [0; 0; 0; 2; 1; 0; 0; 2; 0; 0; 0; 2]%Z |};
     {| shape := [1; 3; 2; 2]; data := [0; 0; 0; 4; 1; 0; 0; 4; 0; 0; 0; 2]%Z |}].
Proof. reflexivity. Qed.

(** Witness of X10: two calls on the example network. *)
Lemma input_grad_accumulates_over_calls_witness :
  ∃ output seed bw,
    m_forward (net_model rgb_net) image = Done output ∧
    make_target output 1 = Ok seed ∧
    m_backward (net_model rgb_net) image seed = Done bw ∧
    ms_param_grad
      (w_model (calculate_gradient (net_model rgb_net) 0 1 false
                  (calculate_gradient (net_model rgb_net) 0 1 false
                     (built rgb_net image)).2).2)
    = [(image, seed)] ∧
    w_heap (calculate_gradient (net_model rgb_net) 0 1 false
              (calculate_gradient (net_model rgb_net) 0 1 false
                 (built rgb_net image)).2).2 !! 0
    = Some (match bw.2 with
            | Some g => add_grad g (add_grad g (set_flag (plain image)))
            | None => set_flag (plain image)
            end).
Proof.
  refine (input_grad_accumulates_over_calls (net_model rgb_net) (built rgb_net image)
            (calculate_gradient (net_model rgb_net) 0 1 false (built rgb_net image)).2
            (calculate_gradient (net_model rgb_net) 0 1 false
               (calculate_gradient (net_model rgb_net) 0 1 false
                  (built rgb_net image)).2).2
            0 1 false (plain image)
            {| shape := [3; 2; 2]; data := [0; 1; 1; 2; 0; 2; 2; 4; 0; 3; 3; 6]%Z |}
            {| shape := [3; 2; 2]; data := [0; 1; 1; 2; 0; 2; 2; 4; 0; 3; 3; 6]%Z |}
            _ _ _ _).
  - reflexivity.
  - reflexivity.
  - reflexivity.
  - reflexivity.
Defined.

(** After those two calls the image holds twice the gradient. *)
Example image_grad_after_two_calls :
  t_grad <$> w_heap (calculate_gradient (net_model rgb_net) 0 1 false
                       (calculate_gradient (net_model rgb_net) 0 1 false
                          (built rgb_net image)).2).2 !! 0
  = Some (Some {| shape := [1; 3; 2; 2];
                  data := [0; 2; 2; 4; 0; 4; 4; 8; 0; 6; 6; 12]%Z |}).
Proof. reflexivity. Qed.

(** Witness of X13: the example call leaves tensors at every hook call. *)
Lemma returning_call_saw_tensors_witness :
  ∃ output seed bw,
    m_forward (net_model rgb_net) image = Done output ∧
    make_target output 1 = Ok seed ∧
    m_backward (net_model rgb_net) image seed = Done bw ∧
    Forall (λ ce, is_Some (observed ce)) (scheduled (w_model (built rgb_net image)) bw.1).
Proof.
  refine (returning_call_saw_tensors (net_model rgb_net) (built rgb_net image)
            (calculate_gradient (net_model rgb_net) 0 1 false (built rgb_net image)).2
            0 1 false (plain image)
            {| shape := [3; 2; 2]; data := [0; 1; 1; 2; 0; 2; 2; 4; 0; 3; 3; 6]%Z |} _ _).
  - reflexivity.
  - reflexivity.
Defined.

(** Witness of X14: a class index out of range, after a call that returned. *)
Lemma failed_call_leaves_zero_buffer_witness :
  self_gradient
    (w_self (calculate_gradient (net_model rgb_net) 0 2 false
               (calculate_gradient (net_model rgb_net) 0 1 false
                  (built rgb_net image)).2).2)
  = Some (zeros (shape image)) ∧
  ms_param_grad
    (w_model (calculate_gradient (net_model rgb_net) 0 2 false
                (calculate_gradient (net_model rgb_net) 0 1 false
                   (built rgb_net image)).2).2) = [].
Proof.
  refine (failed_call_leaves_zero_buffer (net_model rgb_net)
            (calculate_gradient (net_model rgb_net) 0 1 false (built rgb_net image)).2
            0 2 false
            {| t_val := image; t_device := cpu; t_flag := true; t_grad_fn := false;
               t_grad := Some {| shape := [1; 3; 2; 2];
                                 data := [0; 1; 1; 2; 0; 2; 2; 4; 0; 3; 3; 6]%Z |} |}
            SeedIndexError _ _ _).
  - reflexivity.
  - reflexivity.
  - right. right. left. reflexivity.
Defined.
